(** * The 2048 board engine of [main.py]

    A shallow embedding of the game logic of the Kivy application: the
    generator [all_cells], the colour table [tile_colors] that
    [Tile.update_colors] indexes, and the methods of class [Board]
    ([valid_cell], [can_move], [can_merge], [is_deadlocked], [new_tile],
    [reset], [move]).

    Python integers are unbounded, so coordinates, directions and tile
    numbers are [Z].  A [Tile] is a widget object: it has an identity besides
    its [number], and [move] carries the very same object from cell to cell.
    The board never holds one tile in two cells (every store of a tile into a
    cell follows the clearing of the cell it came from), so a cell can hold
    the tile record itself.  Calls into Kivy ([add_widget], [remove_widget],
    [Animation.start], [print]) are recorded in a log of effects. *)

From Stdlib Require Import ZArith List Bool Lia String.
From stdpp Require Import base list.
Import ListNotations.

Local Open Scope Z_scope.

(** ** Module-level tables *)

Definition colors : list string :=
  [ "EEE4DA"; "EDE0C8"; "F2B179"; "F59563"; "F67C5F"; "F65E3B";
    "EDCF72"; "EDCC61"; "EDC850"; "EDC53F"; "EDC22E" ]%string.

(** [enumerate(l, start)] *)
Fixpoint enumerate {A : Type} (start : Z) (l : list A) : list (Z * A) :=
  match l with
  | [] => []
  | a :: l' => (start, a) :: enumerate (start + 1) l'
  end.

(** [{2**i: color for i, color in enumerate(colors, start=1)}] *)
Definition tile_colors : list (Z * string) :=
  List.map (fun ic => (2 ^ fst ic, snd ic)) (enumerate 1 colors).

(** [d[k]]: [None] stands for the [KeyError] of a missing key. *)
Fixpoint dict_get {V : Type} (d : list (Z * V)) (k : Z) : option V :=
  match d with
  | [] => None
  | (k', v) :: d' => if k' =? k then Some v else dict_get d' k
  end.

(** [range(4)] and [reversed(range(4))] *)
Definition range4 : list Z := [0; 1; 2; 3].

Definition axis (flip : bool) : list Z :=
  if flip then rev range4 else range4.

(** The cells in the order the generator yields them. *)
Definition all_cells (flip_x flip_y : bool) : list (Z * Z) :=
  flat_map (fun x => List.map (fun y => (x, y)) (axis flip_y)) (axis flip_x).

(** ** Tiles, the grid and the board object *)

Record Tile : Type := mkTile { uid : nat; number : Z }.

Abbreviation grid := (list (list (option Tile))).

(** [g[x][y]].  Every read and write of the source happens at a cell that
    [valid_cell] has accepted or that [all_cells] has produced, so indices
    are within [0..3] wherever these two are used. *)
Definition get (g : grid) (x y : Z) : option Tile :=
  match g !! Z.to_nat x with
  | Some row =>
      match row !! Z.to_nat y with
      | Some c => c
      | None => None
      end
  | None => None
  end.

(** [g[x][y] = v] *)
Definition put (g : grid) (x y : Z) (v : option Tile) : grid :=
  alter (fun row => <[Z.to_nat y := v]> row) (Z.to_nat x) g.

(** Calls that leave the engine. *)
Inductive effect : Type :=
| Print (msg : string)
| AddWidget (t : Tile)
| RemoveWidget (w : option Tile)
| NumberSet (u : nat) (n : Z)
| AnimStart (t : Tile) (x y : Z) (on_complete_new_tile : bool).

(** The [Board] widget: its two attributes, the supply of identities for the
    tiles it creates, and the effects performed so far (oldest first). *)
Record Board : Type := mkBoard {
  board : grid;
  moving : bool;
  next_uid : nat;
  effects : list effect
}.

Definition with_board (s : Board) (g : grid) : Board :=
  mkBoard g (moving s) (next_uid s) (effects s).

Definition with_moving (s : Board) (m : bool) : Board :=
  mkBoard (board s) m (next_uid s) (effects s).

Definition emit (e : effect) (s : Board) : Board :=
  mkBoard (board s) (moving s) (next_uid s) (effects s ++ [e]).

(** ** Exceptions *)

Inductive exn : Type :=
| IndexError
| KeyError (k : Z).

(** A call returns, raises (the board keeps whatever the call had done to it
    by then), or its [while] loop was cut short by the model's fuel. *)
Inductive outcome (A : Type) : Type :=
| Ok (a : A) (s : Board)
| Raise (e : exn) (s : Board)
| OutOfFuel.

Arguments Ok {A} a s.
Arguments Raise {A} e s.
Arguments OutOfFuel {A}.

Definition bind {A B : Type} (o : outcome A) (k : A -> Board -> outcome B)
  : outcome B :=
  match o with
  | Ok a s => k a s
  | Raise e s => Raise e s
  | OutOfFuel => OutOfFuel
  end.

(** The state a call leaves behind, whether it returned or raised. *)
Definition final {A : Type} (o : outcome A) : option Board :=
  match o with
  | Ok _ s => Some s
  | Raise _ s => Some s
  | OutOfFuel => None
  end.

(** ** Cell predicates *)

Definition valid_cell (x y : Z) : bool :=
  (0 <=? x) && (x <=? 3) && (0 <=? y) && (y <=? 3).

Definition is_none {A : Type} (o : option A) : bool :=
  match o with
  | None => true
  | Some _ => false
  end.

Definition can_move (g : grid) (x y : Z) : bool :=
  valid_cell x y && is_none (get g x y).

Definition can_merge (g : grid) (x y : Z) (n : Z) : bool :=
  valid_cell x y &&
  match get g x y with
  | Some t => number t =? n
  | None => false
  end.

(** ** [is_deadlocked] *)

Fixpoint deadlock_scan (g : grid) (cells : list (Z * Z)) : bool :=
  match cells with
  | [] => true
  | (x, y) :: rest =>
      match get g x y with
      | None => false
      | Some t =>
          if can_merge g (x + 1) y (number t) || can_merge g x (y + 1) (number t)
          then false
          else deadlock_scan g rest
      end
  end.

Definition is_deadlocked (s : Board) : bool :=
  deadlock_scan (board s) (all_cells false false).

(** ** [Tile.update_colors] and [Tile.__init__]

    Only the table lookup matters to the engine: it raises [KeyError] when
    the number has no colour. *)
Definition update_colors (t : Tile) : option exn :=
  match dict_get tile_colors (number t) with
  | Some _ => None
  | None => Some (KeyError (number t))
  end.

(** ** [new_tile] *)

(** [random.choice(l)]: the outcome of the generator is the natural [r];
    [None] is the [IndexError] raised for an empty sequence. *)
Definition choice {A : Type} (r : nat) (l : list A) : option A :=
  match l with
  | [] => None
  | _ :: _ => nth_error l (r mod length l)%nat
  end.

Definition empty_cells (g : grid) : list (Z * Z) :=
  List.filter (fun c => is_none (get g (fst c) (snd c))) (all_cells false false).

Definition new_tile (r : nat) (s : Board) : outcome unit :=
  let cells := empty_cells (board s) in
  match choice r cells with
  | None => Raise IndexError s
  | Some (x, y) =>
      let tile := mkTile (next_uid s) 2 in
      let s := mkBoard (board s) (moving s) (S (next_uid s)) (effects s) in
      match update_colors tile with
      | Some e => Raise e s
      | None =>
          let s := with_board s (put (board s) x y (Some tile)) in
          let s := emit (AddWidget tile) s in
          let s :=
            if (length cells =? 1)%nat && is_deadlocked s
            then emit (Print "game over (deadlock)") s
            else s in
          Ok tt (with_moving s false)
      end
  end.

(** ** [reset] *)

Definition empty_grid : grid := repeat (repeat None 4%nat) 4%nat.

Definition reset (r1 r2 : nat) (s : Board) : outcome unit :=
  let s := with_board s empty_grid in
  bind (new_tile r1 s) (fun _ s => new_tile r2 s).

(** ** [move] *)

(** The [while self.can_move(x + dir_x, y + dir_y)] loop; [None] when the
    fuel runs out before the loop condition fails. *)
Fixpoint slide (fuel : nat) (dir_x dir_y : Z) (tile : Tile) (g : grid) (x y : Z)
  : option (grid * Z * Z) :=
  if can_move g (x + dir_x) (y + dir_y) then
    match fuel with
    | O => None
    | S fuel' =>
        let g := put g x y None in
        let x := x + dir_x in
        let y := y + dir_y in
        let g := put g x y (Some tile) in
        slide fuel' dir_x dir_y tile g x y
    end
  else Some (g, x, y).

(** The [if self.can_merge(...)] block; returns the tile and where it is. *)
Definition merge (dir_x dir_y : Z) (tile : Tile) (x y : Z) (s : Board)
  : outcome (Tile * Z * Z) :=
  if can_merge (board s) (x + dir_x) (y + dir_y) (number tile) then
    let s := with_board s (put (board s) x y None) in
    let x := x + dir_x in
    let y := y + dir_y in
    let s := emit (RemoveWidget (get (board s) x y)) s in
    let tile := mkTile (uid tile) (number tile * 2) in
    let s := with_board s (put (board s) x y (Some tile)) in
    let s := emit (NumberSet (uid tile) (number tile)) s in
    let s := if number tile =? 2048 then emit (Print "you win the game.") s else s in
    match update_colors tile with
    | Some e => Raise e s
    | None => Ok (tile, x, y) s
    end
  else Ok (tile, x, y) s.

(** The animation started for a tile that ended away from its start. *)
Definition animate (tile : Tile) (x y : Z) (s : Board) : Board :=
  if moving s
  then emit (AnimStart tile x y false) s
  else emit (AnimStart tile x y true) (with_moving s true).

Definition slide_fuel : nat := 4.

(** The body of the [for] loop of [move] at one cell. *)
Definition move_cell (dir_x dir_y : Z) (c : Z * Z) (s : Board) : outcome unit :=
  let '(start_x, start_y) := c in
  match get (board s) start_x start_y with
  | None => Ok tt s
  | Some tile =>
      match slide slide_fuel dir_x dir_y tile (board s) start_x start_y with
      | None => OutOfFuel
      | Some (g, x, y) =>
          bind (merge dir_x dir_y tile x y (with_board s g))
            (fun r s =>
               let '(tile, x, y) := r in
               if (x =? start_x) && (y =? start_y)
               then Ok tt s
               else Ok tt (animate tile x y s))
      end
  end.

Fixpoint for_cells (body : Z * Z -> Board -> outcome unit)
    (cells : list (Z * Z)) (s : Board) : outcome unit :=
  match cells with
  | [] => Ok tt s
  | c :: rest => bind (body c s) (fun _ s => for_cells body rest s)
  end.

Definition move (dir_x dir_y : Z) (s : Board) : outcome unit :=
  if moving s then Ok tt s
  else for_cells (move_cell dir_x dir_y) (all_cells (0 <? dir_x) (0 <? dir_y)) s.

(** ** Concrete boards for the examples *)

Definition T (n : Z) (u : nat) : option Tile := Some (mkTile u n).

Definition fresh_board (g : grid) : Board := mkBoard g false 100 [].

Definition values (g : grid) : list (list (option Z)) :=
  List.map (List.map (option_map number)) g.


(** ** [key_vectors] and [on_key_down] *)

(** [d[k] = v]: the value of a key already in the dict is replaced where
    it stands, a new key goes last. *)
Fixpoint dict_set {V : Type} (d : list (Z * V)) (k : Z) (v : V)
  : list (Z * V) :=
  match d with
  | [] => [(k, v)]
  | (k', v') :: d' =>
      if k' =? k then (k', v) :: d' else (k', v') :: dict_set d' k v
  end.

(** A dict display [{k1: v1, k2: v2, ...}]: the items are stored from left
    to right, so of two equal keys the later one gives the value. *)
Definition dict_display {V : Type} (items : list (Z * V)) : list (Z * V) :=
  fold_left (fun d kv => dict_set d (fst kv) (snd kv)) items [].

(** The four entries of [Keyboard.keycodes] that the module reads.  The
    table is Kivy's, not the repository's, so its entries are parameters. *)
Record Keycodes : Type := mkKeycodes {
  code_up : Z;
  code_right : Z;
  code_down : Z;
  code_left : Z
}.

Definition key_vectors (kc : Keycodes) : list (Z * (Z * Z)) :=
  dict_display
    [ (code_up kc, (0, 1)); (code_right kc, (1, 0));
      (code_down kc, (0, -1)); (code_left kc, (-1, 0)) ].

(** [on_key_down(window, key, *args)] *)
Definition on_key_down (kc : Keycodes) (key : Z) (s : Board) : outcome unit :=
  match dict_get (key_vectors kc) key with
  | Some (dir_x, dir_y) => move dir_x dir_y s
  | None => Ok tt s
  end.

(** * Vocabulary of the properties *)

(** ** Shape and contents of a grid *)

(** The grid is the 4x4 list of lists that [reset] builds. *)
Definition wf_grid (g : grid) : Prop :=
  length g = 4%nat /\ Forall (fun row => length row = 4%nat) g.

(** The same, as a test that runs on a concrete grid. *)
Definition wf_gridb (g : grid) : bool :=
  (length g =? 4)%nat && forallb (fun row => (length row =? 4)%nat) g.

(** Every cell is occupied. *)
Definition full (g : grid) : Prop :=
  forall x y, valid_cell x y = true -> get g x y <> None.

(** A full board without two equal neighbours. *)
Definition full_example : grid :=
  [ [T 2 0; T 4 1; T 2 2; T 4 3];
    [T 4 4; T 2 5; T 4 6; T 2 7];
    [T 2 8; T 4 9; T 2 10; T 4 11];
    [T 4 12; T 2 13; T 4 14; T 2 15] ].

Definition empty_row : list (option Tile) := repeat None 4%nat.

(** The grid whose list [board[k]] is [line], all else empty. *)
Definition grid_x (k : nat) (line : list (option Tile)) : grid :=
  <[k := line]> empty_grid.

(** The grid with [board[i][k] = line[i]], all else empty. *)
Definition grid_y (k : nat) (line : list (option Tile)) : grid :=
  List.map (fun c => <[k := c]> empty_row) line.

(** The numbers on the board a call returned with. *)
Definition moved_values (o : outcome unit) : option (list (list (option Z))) :=
  match o with
  | Ok _ s => Some (values (board s))
  | _ => None
  end.

(** No two orthogonally adjacent cells hold tiles of equal number. *)
Definition no_equal_neighbours (g : grid) : Prop :=
  forall x y x' y' t t',
    valid_cell x y = true -> valid_cell x' y' = true ->
    Z.abs (x - x') + Z.abs (y - y') = 1 ->
    get g x y = Some t -> get g x' y' = Some t' ->
    number t <> number t'.

(** No tile has an empty or a mergeable cell next to it in the direction. *)
Definition stuck (dir_x dir_y : Z) (g : grid) : Prop :=
  forall x y t,
    valid_cell x y = true -> get g x y = Some t ->
    can_move g (x + dir_x) (y + dir_y) = false /\
    can_merge g (x + dir_x) (y + dir_y) (number t) = false.

(** The same, as a test that runs on a concrete grid. *)
Definition stuckb (dir_x dir_y : Z) (g : grid) : bool :=
  forallb
    (fun c =>
       match get g (fst c) (snd c) with
       | None => true
       | Some t =>
           negb (can_move g (fst c + dir_x) (snd c + dir_y)) &&
           negb (can_merge g (fst c + dir_x) (snd c + dir_y) (number t))
       end)
    (all_cells false false).

(** The line [2, 4, 8, 16], already packed toward index 0. *)
Definition packed_example : grid :=
  grid_x 0 [T 2 0; T 4 1; T 8 2; T 16 3].

(** ** The loop body of [move], step by step *)

(** How many steps are left before the tile leaves the board. *)
Definition room (dir_x dir_y x y : Z) : Z :=
  if 0 <? dir_x then 3 - x
  else if dir_x <? 0 then x
  else if 0 <? dir_y then 3 - y
  else if dir_y <? 0 then y
  else 0.

(** The tile after [tile.number *= 2]: the same object, twice the number. *)
Definition merged (tile : Tile) : Tile := mkTile (uid tile) (number tile * 2).

(** The board once the merge block has stored and doubled the tile that
    stood at [(x, y)]. *)
Definition after_merge (dir_x dir_y : Z) (tile : Tile) (x y : Z) (s : Board)
  : Board :=
  let g := put (board s) x y None in
  mkBoard (put g (x + dir_x) (y + dir_y) (Some (merged tile)))
    (moving s) (next_uid s)
    (effects s ++
     [RemoveWidget (get g (x + dir_x) (y + dir_y));
      NumberSet (uid tile) (number tile * 2)] ++
     (if number tile * 2 =? 2048 then [Print "you win the game."] else [])).

(** The end of the loop body: an animation unless the tile is where it was. *)
Definition finish (start_x start_y : Z) (tile : Tile) (x y : Z) (s : Board)
  : Board :=
  if (x =? start_x) && (y =? start_y) then s else animate tile x y s.

(** The grid after the tile of [(x, y)] has gone [n] steps. *)
Definition landed (dir_x dir_y : Z) (g : grid) (x y : Z) (tile : Tile) (n : Z)
  : grid :=
  put (put g x y None) (x + n * dir_x) (y + n * dir_y) (Some tile).

(** What the loop body does at a cell: nothing at an empty cell; otherwise
    the tile slides [n] steps over empty cells and then either stays there or
    merges into the next cell, where [update_colors] returns or raises. *)
Inductive cell_outcome (dir_x dir_y : Z) (s : Board) (x y : Z)
  : outcome unit -> Prop :=
| cell_empty :
    get (board s) x y = None ->
    cell_outcome dir_x dir_y s x y (Ok tt s)
| cell_slid (tile : Tile) (n : Z) :
    get (board s) x y = Some tile -> 0 <= n ->
    valid_cell (x + n * dir_x) (y + n * dir_y) = true ->
    (n = 0 \/ (x + n * dir_x, y + n * dir_y) <> (x, y) /\
              get (board s) (x + n * dir_x) (y + n * dir_y) = None) ->
    can_merge (landed dir_x dir_y (board s) x y tile n)
      (x + n * dir_x + dir_x) (y + n * dir_y + dir_y) (number tile) = false ->
    cell_outcome dir_x dir_y s x y
      (Ok tt (finish x y tile (x + n * dir_x) (y + n * dir_y)
                (with_board s (landed dir_x dir_y (board s) x y tile n))))
| cell_merged (tile : Tile) (n : Z) :
    get (board s) x y = Some tile -> 0 <= n ->
    valid_cell (x + n * dir_x) (y + n * dir_y) = true ->
    (n = 0 \/ (x + n * dir_x, y + n * dir_y) <> (x, y) /\
              get (board s) (x + n * dir_x) (y + n * dir_y) = None) ->
    can_merge (landed dir_x dir_y (board s) x y tile n)
      (x + n * dir_x + dir_x) (y + n * dir_y + dir_y) (number tile) = true ->
    update_colors (merged tile) = None ->
    cell_outcome dir_x dir_y s x y
      (Ok tt (finish x y (merged tile)
                (x + n * dir_x + dir_x) (y + n * dir_y + dir_y)
                (after_merge dir_x dir_y tile (x + n * dir_x) (y + n * dir_y)
                   (with_board s (landed dir_x dir_y (board s) x y tile n)))))
| cell_merged_raise (tile : Tile) (n : Z) (e : exn) :
    get (board s) x y = Some tile -> 0 <= n ->
    valid_cell (x + n * dir_x) (y + n * dir_y) = true ->
    (n = 0 \/ (x + n * dir_x, y + n * dir_y) <> (x, y) /\
              get (board s) (x + n * dir_x) (y + n * dir_y) = None) ->
    can_merge (landed dir_x dir_y (board s) x y tile n)
      (x + n * dir_x + dir_x) (y + n * dir_y + dir_y) (number tile) = true ->
    update_colors (merged tile) = Some e ->
    cell_outcome dir_x dir_y s x y
      (Raise e
         (after_merge dir_x dir_y tile (x + n * dir_x) (y + n * dir_y)
            (with_board s (landed dir_x dir_y (board s) x y tile n)))).

(** ** Numbers and sums *)

(** A power of two, 2 at least. *)
Definition power_of_two (n : Z) : Prop := exists k, 1 <= k /\ n = 2 ^ k.

(** Every tile number on the grid is one. *)
Definition tiles_ok (g : grid) : Prop :=
  forall x y t,
    valid_cell x y = true -> get g x y = Some t -> power_of_two (number t).

(** The directions the keyboard handler passes: [key_vectors]. *)
Definition unit_direction (dir_x dir_y : Z) : Prop :=
  (dir_x, dir_y) = (0, 1) \/ (dir_x, dir_y) = (1, 0) \/
  (dir_x, dir_y) = (0, -1) \/ (dir_x, dir_y) = (-1, 0).

(** The sum of the numbers on the grid; an empty cell counts 0. *)
Definition tile_value (c : option Tile) : Z :=
  match c with
  | Some t => number t
  | None => 0
  end.

Definition row_sum (row : list (option Tile)) : Z :=
  fold_right (fun c acc => tile_value c + acc) 0 row.

Definition grid_sum (g : grid) : Z :=
  fold_right (fun row acc => row_sum row + acc) 0 g.

(** A board with slides and merges in every direction. *)
Definition sum_example : grid :=
  [ [T 2 0; T 2 1; T 4 2; None];
    [None; T 8 3; T 8 4; T 16 5];
    [T 2 6; None; None; T 2 7];
    [T 4 8; T 4 9; T 4 10; T 4 11] ].

(** The effect is the start of an animation (the only carrier of the
    [new_tile] callback). *)
Definition is_animation (e : effect) : bool :=
  match e with
  | AnimStart _ _ _ _ => true
  | _ => false
  end.

(** Every tile number is one of 2, 4, ..., 1024: the numbers whose double
    has a colour in [tile_colors]. *)
Definition tiles_below_2048 (g : grid) : Prop :=
  forall x y t,
    valid_cell x y = true -> get g x y = Some t ->
    exists k, 1 <= k <= 10 /\ number t = 2 ^ k.

(** What [move(0, 0)] is meant to do on every board: return, with every
    cell holding the tile it held, doubled. *)
Definition zero_move_doubles_every_tile (s : Board) : Prop :=
  exists s',
    move 0 0 s = Ok tt s' /\
    forall x y, valid_cell x y = true ->
      get (board s') x y = option_map merged (get (board s) x y).

(** A board on which a 2048 tile has been made. *)
Definition board_with_2048 : grid :=
  grid_x 0 [T 2 0; T 2048 1; T 2 2; T 2 3].

(** ** Merges in the log *)

Definition is_doubling (u : nat) (e : effect) : bool :=
  match e with
  | NumberSet v _ => Nat.eqb v u
  | _ => false
  end.

Definition is_removal (u : nat) (e : effect) : bool :=
  match e with
  | RemoveWidget (Some t) => Nat.eqb (uid t) u
  | _ => false
  end.

(** How often tile [u] was the moving tile of a merge (its number was
    doubled), and how often it was the tile merged into (its widget was
    removed). *)
Definition doublings (u : nat) (log : list effect) : nat :=
  length (List.filter (is_doubling u) log).

Definition removals (u : nat) (log : list effect) : nat :=
  length (List.filter (is_removal u) log).

(** The merges tile [u] took part in. *)
Definition merges_of (u : nat) (log : list effect) : nat :=
  (doublings u log + removals u log)%nat.

(** The line [2, 2, 4, None] across the inner lists. *)
Definition line_224 : grid := grid_y 0 [T 2 0; T 2 1; T 4 2; None].

(** Tile [u] is on the grid. *)
Definition on_board (u : nat) (g : grid) : Prop :=
  exists x y t, valid_cell x y = true /\ get g x y = Some t /\ uid t = u.

(** No identity is on the grid twice: the tiles are distinct objects. *)
Definition distinct_tiles (g : grid) : Prop :=
  forall x y x' y' t t',
    valid_cell x y = true -> valid_cell x' y' = true ->
    get g x y = Some t -> get g x' y' = Some t' ->
    uid t = uid t' -> (x, y) = (x', y').

(** The traversal visits a cell after every cell ahead of it in the
    direction: no cell still to come lies ahead of the visited one. *)
Fixpoint ahead_first (dir_x dir_y : Z) (cells : list (Z * Z)) : Prop :=
  match cells with
  | [] => True
  | c :: rest =>
      (forall x' y', In (x', y') rest ->
         forall m, 0 <= m ->
           (x', y') <> (fst c + m * dir_x, snd c + m * dir_y)) /\
      ahead_first dir_x dir_y rest
  end.

(** [distinct_tiles] as a test that runs on a concrete grid. *)
Definition distinct_tilesb (g : grid) : bool :=
  forallb
    (fun c =>
       forallb
         (fun c' =>
            match get g (fst c) (snd c), get g (fst c') (snd c') with
            | Some t, Some t' =>
                negb (Nat.eqb (uid t) (uid t')) ||
                ((fst c =? fst c') && (snd c =? snd c'))
            | _, _ => true
            end)
         (all_cells false false))
    (all_cells false false).

(** ** Vocabulary of the further properties *)

(** The effect is an animation whose completion calls [new_tile]. *)
Definition is_spawn_request (e : effect) : bool :=
  match e with
  | AnimStart _ _ _ true => true
  | _ => false
  end.

Definition spawn_requests (log : list effect) : nat :=
  length (List.filter is_spawn_request log).

(** The tile of cell [(x, y)], if there is one, can neither slide nor merge
    in the direction. *)
Definition stuck_at (dir_x dir_y : Z) (g : grid) (x y : Z) : Prop :=
  forall t,
    get g x y = Some t ->
    can_move g (x + dir_x) (y + dir_y) = false /\
    can_merge g (x + dir_x) (y + dir_y) (number t) = false.

(** There is a tile on the grid. *)
Definition has_tile (g : grid) : Prop :=
  exists x y t, valid_cell x y = true /\ get g x y = Some t.

(** * Properties *)

(** ** The grid as a 4x4 array *)

Lemma wf_gridb_true (g : grid) : wf_gridb g = true -> wf_grid g.
Proof.
  unfold wf_gridb, wf_grid. intros H.
  apply andb_prop in H as [Hl Hr]. split.
  - now apply Nat.eqb_eq.
  - apply List.Forall_forall. intros row Hin.
    rewrite forallb_forall in Hr. apply Nat.eqb_eq. now apply Hr.
Qed.

Lemma valid_cell_spec (x y : Z) :
  valid_cell x y = true <-> 0 <= x <= 3 /\ 0 <= y <= 3.
Proof. unfold valid_cell. rewrite !andb_true_iff, !Z.leb_le. lia. Qed.

Lemma valid_cell_false (x y : Z) :
  valid_cell x y = false <-> ~ (0 <= x <= 3 /\ 0 <= y <= 3).
Proof.
  rewrite <- valid_cell_spec. destruct (valid_cell x y); intuition congruence.
Qed.

Lemma wf_put (g : grid) (x y : Z) (v : option Tile) :
  wf_grid g -> wf_grid (put g x y v).
Proof.
  intros [Hl Hr]. unfold put. split.
  - now rewrite length_alter.
  - rewrite Forall_lookup in Hr |- *. intros i row Hi.
    destruct (decide (Z.to_nat x = i)) as [<-|Hne].
    + rewrite list_lookup_alter_eq in Hi.
      destruct (g !! Z.to_nat x) as [row0|] eqn:E; simpl in Hi; [|discriminate].
      injection Hi as <-. rewrite length_insert. eapply Hr; eauto.
    + rewrite list_lookup_alter_ne in Hi by exact Hne. eapply Hr; eauto.
Qed.

Lemma get_put_eq (g : grid) (x y : Z) (v : option Tile) :
  wf_grid g -> valid_cell x y = true -> get (put g x y v) x y = v.
Proof.
  intros [Hl Hr] Hv. apply valid_cell_spec in Hv. unfold get, put.
  rewrite list_lookup_alter_eq.
  destruct (lookup_lt_is_Some_2 g (Z.to_nat x)) as [row E]; [lia|].
  rewrite E. simpl.
  rewrite list_lookup_insert_eq; [reflexivity|].
  rewrite Forall_lookup in Hr. rewrite (Hr _ _ E). lia.
Qed.

Lemma get_put_ne (g : grid) (x y x' y' : Z) (v : option Tile) :
  valid_cell x y = true -> valid_cell x' y' = true ->
  (x, y) <> (x', y') -> get (put g x y v) x' y' = get g x' y'.
Proof.
  intros Hv Hv' Hne. apply valid_cell_spec in Hv, Hv'. unfold get, put.
  destruct (decide (Z.to_nat x = Z.to_nat x')) as [Ex|Ex].
  - rewrite Ex, list_lookup_alter_eq.
    destruct (g !! Z.to_nat x') as [row|]; simpl; [|reflexivity].
    rewrite list_lookup_insert_ne; [reflexivity|].
    intros Ey. apply Hne. f_equal; lia.
  - now rewrite list_lookup_alter_ne.
Qed.

(** Two well-formed grids with the same cells are the same grid. *)
Lemma grid_ext (g g' : grid) :
  wf_grid g -> wf_grid g' ->
  (forall x y, valid_cell x y = true -> get g x y = get g' x y) -> g = g'.
Proof.
  intros [Hl Hr] [Hl' Hr'] H. apply list_eq. intros i.
  destruct (decide (i < 4)%nat) as [Hi|Hi].
  - destruct (lookup_lt_is_Some_2 g i) as [row E]; [lia|].
    destruct (lookup_lt_is_Some_2 g' i) as [row' E']; [lia|].
    rewrite E, E'. f_equal. apply list_eq. intros j.
    rewrite Forall_lookup in Hr, Hr'.
    pose proof (Hr _ _ E) as Lr. pose proof (Hr' _ _ E') as Lr'.
    destruct (decide (j < 4)%nat) as [Hj|Hj].
    + specialize (H (Z.of_nat i) (Z.of_nat j)). unfold get in H.
      rewrite !Nat2Z.id, E, E' in H.
      destruct (lookup_lt_is_Some_2 row j) as [c Ec]; [lia|].
      destruct (lookup_lt_is_Some_2 row' j) as [c' Ec']; [lia|].
      rewrite Ec, Ec' in H |- *. f_equal. apply H. apply valid_cell_spec. lia.
    + rewrite !lookup_ge_None_2 by lia. reflexivity.
  - rewrite !lookup_ge_None_2 by lia. reflexivity.
Qed.

(** ** The traversal *)

Lemma in_axis (f : bool) (x : Z) : In x (axis f) <-> 0 <= x <= 3.
Proof. destruct f; simpl; lia. Qed.

Lemma in_all_cells (fx fy : bool) (x y : Z) :
  In (x, y) (all_cells fx fy) <-> valid_cell x y = true.
Proof.
  unfold all_cells. rewrite in_flat_map, valid_cell_spec. split.
  - intros (x0 & Hx & Hin). apply in_map_iff in Hin as (y0 & E & Hy).
    injection E as -> ->. apply in_axis in Hx, Hy. lia.
  - intros [Hx Hy]. exists x. split; [now apply in_axis|].
    apply in_map_iff. exists y. split; [reflexivity|now apply in_axis].
Qed.

(** ** [random.choice] *)

Lemma choice_nonempty {A : Type} (r : nat) (l : list A) :
  l <> [] -> exists a, choice r l = Some a /\ In a l.
Proof.
  intros Hl. destruct l as [|a0 l0]; [congruence|]. unfold choice.
  set (l := a0 :: l0).
  assert (Hlt : (r mod length l < length l)%nat)
    by (apply Nat.mod_upper_bound; discriminate).
  destruct (nth_error l (r mod length l)) as [a|] eqn:E.
  - exists a. split; [reflexivity|]. eapply nth_error_In; eauto.
  - apply nth_error_None in E. lia.
Qed.

(** Every element of the sequence is the outcome of some draw. *)
Lemma choice_reaches {A : Type} (l : list A) (a : A) :
  In a l -> exists r, choice r l = Some a.
Proof.
  intros Hin. apply In_nth_error in Hin as [n Hn].
  assert (Hlt : (n < length l)%nat) by (apply nth_error_Some; congruence).
  exists n. destruct l as [|a0 l0]; [simpl in Hlt; lia|]. unfold choice.
  now rewrite Nat.mod_small.
Qed.

(** ** Empty cells *)

Lemma in_empty_cells (g : grid) (x y : Z) :
  In (x, y) (empty_cells g) <-> valid_cell x y = true /\ get g x y = None.
Proof.
  unfold empty_cells. rewrite filter_In, in_all_cells. simpl.
  destruct (get g x y); simpl; intuition congruence.
Qed.

Lemma empty_cells_full (g : grid) : full g -> empty_cells g = [].
Proof.
  intros Hf. destruct (empty_cells g) as [|[x y] l] eqn:E; [reflexivity|].
  assert (Hin : In (x, y) (empty_cells g)) by (rewrite E; now left).
  apply in_empty_cells in Hin as [Hv Hn]. now apply Hf in Hv.
Qed.

Lemma get_empty_grid (x y : Z) : get empty_grid x y = None.
Proof.
  unfold get, empty_grid.
  destruct (repeat (repeat None 4%nat) 4%nat !! Z.to_nat x) as [row|] eqn:E;
    [|reflexivity].
  apply list_elem_of_lookup_2, list_elem_of_In, repeat_spec in E. subst row.
  destruct (repeat None 4%nat !! Z.to_nat y) as [c|] eqn:E'; [|reflexivity].
  now apply list_elem_of_lookup_2, list_elem_of_In, repeat_spec in E'.
Qed.

Lemma wf_empty_grid : wf_grid empty_grid.
Proof. apply wf_gridb_true. reflexivity. Qed.

(** ** What one [new_tile] call does *)

Lemma new_tile_spawns (r : nat) (s : Board) :
  empty_cells (board s) <> [] ->
  exists x y s',
    new_tile r s = Ok tt s' /\
    valid_cell x y = true /\ get (board s) x y = None /\
    board s' = put (board s) x y (Some (mkTile (next_uid s) 2)) /\
    moving s' = false.
Proof.
  intros Hne. destruct (choice_nonempty r _ Hne) as ([x y] & Hc & Hin).
  apply in_empty_cells in Hin as [Hv Hn].
  exists x, y. unfold new_tile. rewrite Hc.
  change (update_colors (mkTile (next_uid s) 2)) with (@None exn).
  cbv beta iota zeta.
  match goal with
  | |- context [if ?c then _ else _] => destruct c
  end; eexists; (split; [reflexivity|]); auto.
Qed.

(** ** Spawning *)

(** C3: [new_tile] on a board without an empty cell raises (the
    [IndexError] of [random.choice] on an empty sequence) whatever the random
    draw, before it has touched the board: the state carried by the exception
    is the state of the call. *)
Theorem new_tile_full_board_raises (r : nat) (s : Board) :
  full (board s) -> new_tile r s = Raise IndexError s.
Proof.
  intros Hf. unfold new_tile. now rewrite (empty_cells_full _ Hf).
Qed.

Lemma full_by_scan (g : grid) :
  forallb (fun c => negb (is_none (get g (fst c) (snd c)))) (all_cells false false)
  = true -> full g.
Proof.
  intros H x y Hv Hn. rewrite forallb_forall in H.
  apply in_all_cells with (fx := false) (fy := false) in Hv.
  apply H in Hv. simpl in Hv. now rewrite Hn in Hv.
Qed.

Lemma new_tile_full_board_raises_witness :
  full (board (fresh_board full_example)) /\
  new_tile 7 (fresh_board full_example)
  = Raise IndexError (fresh_board full_example).
Proof.
  assert (Hf : full (board (fresh_board full_example)))
    by (apply full_by_scan; reflexivity).
  split; [exact Hf|]. exact (new_tile_full_board_raises 7 _ Hf).
Defined.

(** ** [reset] *)

Lemma reset_spec (r1 r2 : nat) (s : Board) :
  exists s' x1 y1 x2 y2 t1 t2,
    reset r1 r2 s = Ok tt s' /\
    wf_grid (board s') /\
    valid_cell x1 y1 = true /\ valid_cell x2 y2 = true /\
    (x1, y1) <> (x2, y2) /\
    get (board s') x1 y1 = Some t1 /\ number t1 = 2 /\
    get (board s') x2 y2 = Some t2 /\ number t2 = 2 /\
    (forall x y, valid_cell x y = true ->
       (x, y) <> (x1, y1) -> (x, y) <> (x2, y2) -> get (board s') x y = None).
Proof.
  unfold reset.
  destruct (new_tile_spawns r1 (with_board s empty_grid))
    as (x1 & y1 & s1 & E1 & V1 & _ & B1 & _); [discriminate|].
  simpl in B1.
  assert (W1 : wf_grid (board s1))
    by (rewrite B1; apply wf_put, wf_empty_grid).
  assert (G1 : get (board s1) x1 y1 = Some (mkTile (next_uid s) 2))
    by (rewrite B1; apply get_put_eq; [apply wf_empty_grid|exact V1]).
  assert (Hne : empty_cells (board s1) <> []).
  { set (c := if decide ((x1, y1) = (0, 0)) then (0, 1) else (0, 0)).
    assert (Hc : In c (empty_cells (board s1))).
    { destruct c as [cx cy] eqn:Ec. apply in_empty_cells.
      subst c. destruct (decide ((x1, y1) = (0, 0))) as [E0|N0];
        injection Ec as <- <-; (split; [reflexivity|]); rewrite B1.
      - injection E0 as -> ->. rewrite get_put_ne by easy. apply get_empty_grid.
      - rewrite get_put_ne by easy. apply get_empty_grid. }
    intros E. rewrite E in Hc. destruct Hc. }
  destruct (new_tile_spawns r2 s1 Hne) as (x2 & y2 & s2 & E2 & V2 & N2 & B2 & _).
  exists s2, x1, y1, x2, y2, (mkTile (next_uid s) 2), (mkTile (next_uid s1) 2).
  rewrite E1. simpl. split; [exact E2|].
  assert (D : (x1, y1) <> (x2, y2)).
  { intros E. injection E as -> ->. rewrite G1 in N2. discriminate. }
  split; [rewrite B2; now apply wf_put|].
  repeat (split; [assumption|]).
  split; [rewrite B2, get_put_ne by (auto; congruence); exact G1|].
  split; [reflexivity|].
  split; [rewrite B2; now apply get_put_eq|].
  split; [reflexivity|].
  intros x y V Hn1 Hn2.
  rewrite B2, get_put_ne by (auto; congruence).
  rewrite B1, get_put_ne by (auto; congruence).
  apply get_empty_grid.
Qed.

(** C7: whatever the two random draws and whatever the board was before,
    [reset] returns with exactly two occupied cells, at distinct positions,
    each holding a tile of number 2; every other cell is empty. *)
Theorem reset_two_tiles (r1 r2 : nat) (s : Board) :
  exists s' x1 y1 x2 y2 t1 t2,
    reset r1 r2 s = Ok tt s' /\
    wf_grid (board s') /\
    valid_cell x1 y1 = true /\ valid_cell x2 y2 = true /\
    (x1, y1) <> (x2, y2) /\
    get (board s') x1 y1 = Some t1 /\ number t1 = 2 /\
    get (board s') x2 y2 = Some t2 /\ number t2 = 2 /\
    (forall x y, valid_cell x y = true ->
       (x, y) <> (x1, y1) -> (x, y) <> (x2, y2) -> get (board s') x y = None).
Proof. apply reset_spec. Qed.

(** ** [move] while a move is in flight *)

(** C5: with [moving] set, [move] returns at once for every direction: the
    grid, every tile, the flag and the log of effects (so no animation and
    no spawn callback) are those of the caller. *)
Theorem move_rejected_while_moving (dir_x dir_y : Z) (s : Board) :
  moving s = true -> move dir_x dir_y s = Ok tt s.
Proof. intros H. unfold move. now rewrite H. Qed.

Lemma move_rejected_while_moving_witness :
  move 1 0 (mkBoard full_example true 16 []) = Ok tt (mkBoard full_example true 16 []).
Proof. apply (move_rejected_while_moving 1 0 (mkBoard full_example true 16 [])). reflexivity. Defined.

(** ** Four equal tiles in a line *)

(** C6: a line of four 2-tiles on an otherwise empty board, moved toward
    index 0, becomes [4, 4, None, None]: two pairs, no chain.  This holds for
    a line stored as one inner list [board[k]] (moved with [(0, -1)]) and for
    a line across the inner lists, [board[0..3][k]] (moved with [(-1, 0)]),
    for each of the four places [k] and whatever the tiles' identities. *)
Theorem move_2222_is_pairwise (k : nat) (u0 u1 u2 u3 : nat) :
  (k < 4)%nat ->
  let line := [T 2 u0; T 2 u1; T 2 u2; T 2 u3] in
  let expected := [Some 4; Some 4; None; None] in
  moved_values (move 0 (-1) (fresh_board (grid_x k line)))
  = Some (<[k := expected]> (repeat (repeat None 4%nat) 4%nat)) /\
  moved_values (move (-1) 0 (fresh_board (grid_y k line)))
  = Some (List.map (fun c => <[k := c]> (repeat None 4%nat)) expected).
Proof.
  intros Hk.
  destruct k as [|[|[|[|k]]]]; [| | | |lia]; split; vm_compute; reflexivity.
Qed.

Lemma move_2222_is_pairwise_witness :
  moved_values (move 0 (-1) (fresh_board
    [ [T 2 0; T 2 1; T 2 2; T 2 3]; [None; None; None; None];
      [None; None; None; None]; [None; None; None; None] ]))
  = Some [ [Some 4; Some 4; None; None]; [None; None; None; None];
           [None; None; None; None]; [None; None; None; None] ].
Proof.
  exact (proj1 (move_2222_is_pairwise 0 0 1 2 3 ltac:(lia))).
Defined.

(** ** Deadlock detection *)

Lemma can_merge_false (g : grid) (x y n : Z) :
  can_merge g x y n = false <->
  (valid_cell x y = true -> forall t, get g x y = Some t -> number t <> n).
Proof.
  unfold can_merge. destruct (valid_cell x y); simpl.
  - destruct (get g x y) as [t|].
    + rewrite Z.eqb_neq. split.
      * intros H _ t' E. now injection E as <-.
      * intros H. now apply H.
    + split; [intros _ _ t E; discriminate|reflexivity].
  - split; [intros _ H; discriminate|reflexivity].
Qed.

Lemma deadlock_scan_true (g : grid) (cells : list (Z * Z)) :
  deadlock_scan g cells = true <->
  forall x y, In (x, y) cells ->
    exists t, get g x y = Some t /\
      can_merge g (x + 1) y (number t) = false /\
      can_merge g x (y + 1) (number t) = false.
Proof.
  induction cells as [|[cx cy] rest IH]; simpl.
  - split; [intros _ x y []|reflexivity].
  - destruct (get g cx cy) as [t|] eqn:G.
    + destruct (can_merge g (cx + 1) cy (number t)) eqn:M1;
        [|destruct (can_merge g cx (cy + 1) (number t)) eqn:M2]; simpl.
      * split; [discriminate|]. intros H.
        destruct (H cx cy (or_introl eq_refl)) as (t' & G' & M1' & _).
        rewrite G in G'. injection G' as <-. congruence.
      * split; [discriminate|]. intros H.
        destruct (H cx cy (or_introl eq_refl)) as (t' & G' & _ & M2').
        rewrite G in G'. injection G' as <-. congruence.
      * rewrite IH. split.
        -- intros H x y [E|Hin]; [|now apply H].
           injection E as <- <-. now exists t.
        -- intros H x y Hin. apply H. now right.
    + split; [discriminate|]. intros H.
      destruct (H cx cy (or_introl eq_refl)) as (t' & G' & _). congruence.
Qed.

(** C2: [is_deadlocked] returns true exactly when every cell is occupied
    and no two orthogonally adjacent cells hold equal numbers.  Hence on a
    full board it returns true iff there is no adjacent equal pair (probing
    only the [x + 1] and [y + 1] neighbours loses nothing), and on a board
    with an empty cell it returns false. *)
Theorem is_deadlocked_iff (s : Board) :
  (is_deadlocked s = true <-> full (board s) /\ no_equal_neighbours (board s)) /\
  (full (board s) ->
     (is_deadlocked s = true <-> no_equal_neighbours (board s))) /\
  ((exists x y, valid_cell x y = true /\ get (board s) x y = None) ->
     is_deadlocked s = false).
Proof.
  assert (Hiff : is_deadlocked s = true <->
                 full (board s) /\ no_equal_neighbours (board s)).
  { unfold is_deadlocked. rewrite deadlock_scan_true. set (g := board s). split.
    - intros H.
      assert (H' : forall x y, valid_cell x y = true ->
                 exists t, get g x y = Some t /\
                   can_merge g (x + 1) y (number t) = false /\
                   can_merge g x (y + 1) (number t) = false).
      { intros x y V. apply H. now apply in_all_cells. }
      clear H. split.
      + intros x y V. destruct (H' x y V) as (t & G & _). congruence.
      + intros x y x' y' t t' V V' A G G'.
        destruct (H' x y V) as (t0 & G0 & Mx & My).
        destruct (H' x' y' V') as (t0' & G0' & Mx' & My').
        rewrite G in G0. injection G0 as <-.
        rewrite G' in G0'. injection G0' as <-.
        rewrite can_merge_false in Mx, My, Mx', My'.
        assert (C : (x' = x + 1 /\ y' = y) \/ (x = x' + 1 /\ y = y') \/
                    (x' = x /\ y' = y + 1) \/ (x = x' /\ y = y' + 1)) by lia.
        destruct C as [[-> ->]|[[-> ->]|[[-> ->]|[-> ->]]]].
        * intros E. now apply (Mx V' t').
        * intros E. now apply (Mx' V t).
        * intros E. now apply (My V' t').
        * intros E. now apply (My' V t).
    - intros [Hf Hn] x y Hin. apply in_all_cells in Hin.
      destruct (get g x y) as [t|] eqn:G; [|now apply Hf in Hin].
      exists t. split; [reflexivity|].
      split; apply can_merge_false; intros V' t' G' E;
        apply (Hn x y _ _ t t' Hin V'); auto; lia. }
  split; [exact Hiff|]. split.
  - intros Hf. rewrite Hiff. tauto.
  - intros (x & y & V & G).
    apply not_true_is_false. intros E.
    apply Hiff in E as [Hf _]. now apply Hf in V.
Qed.

(** ** A move in which nothing can slide or merge *)

Lemma with_board_same (s : Board) : with_board s (board s) = s.
Proof. now destruct s. Qed.

Lemma move_cell_stuck (dir_x dir_y : Z) (c : Z * Z) (s : Board) :
  stuck dir_x dir_y (board s) -> valid_cell (fst c) (snd c) = true ->
  move_cell dir_x dir_y c s = Ok tt s.
Proof.
  destruct c as [x y]. simpl. intros Hs V. unfold move_cell.
  destruct (get (board s) x y) as [tile|] eqn:G; [|reflexivity].
  destruct (Hs x y tile V G) as [Hm Hg].
  simpl. rewrite Hm. simpl. unfold merge.
  rewrite with_board_same, Hg. simpl. now rewrite !Z.eqb_refl.
Qed.

Lemma for_cells_stuck (dir_x dir_y : Z) (cells : list (Z * Z)) (s : Board) :
  stuck dir_x dir_y (board s) ->
  (forall c, In c cells -> valid_cell (fst c) (snd c) = true) ->
  for_cells (move_cell dir_x dir_y) cells s = Ok tt s.
Proof.
  intros Hs. induction cells as [|c rest IH]; intros Hv; [reflexivity|].
  simpl. rewrite move_cell_stuck by (auto; apply Hv; now left).
  simpl. apply IH. intros c' Hin. apply Hv. now right.
Qed.

(** C4: when no tile can slide or merge in the direction, [move] returns
    the very state it was given: the same grid with the same tiles, the same
    [moving] flag (unset if it was unset), and nothing added to the log, so no
    animation was started and no spawn was scheduled.  This holds for every
    direction, the four unit directions among them. *)
Theorem move_stuck_is_noop (dir_x dir_y : Z) (s : Board) :
  stuck dir_x dir_y (board s) -> move dir_x dir_y s = Ok tt s.
Proof.
  intros Hs. unfold move. destruct (moving s); [reflexivity|].
  apply for_cells_stuck; [exact Hs|].
  intros [x y] Hin. now apply in_all_cells in Hin.
Qed.

Lemma stuckb_true (dir_x dir_y : Z) (g : grid) :
  stuckb dir_x dir_y g = true -> stuck dir_x dir_y g.
Proof.
  unfold stuckb. rewrite forallb_forall. intros H x y t V G.
  apply in_all_cells with (fx := false) (fy := false) in V.
  apply H in V. simpl in V. rewrite G in V.
  apply andb_prop in V as [V1 V2].
  now rewrite negb_true_iff in V1, V2.
Qed.

Lemma move_stuck_is_noop_witness :
  stuck 0 (-1) (board (fresh_board packed_example)) /\
  move 0 (-1) (fresh_board packed_example) = Ok tt (fresh_board packed_example).
Proof.
  assert (H : stuck 0 (-1) (board (fresh_board packed_example)))
    by (apply stuckb_true; reflexivity).
  split; [exact H|]. exact (move_stuck_is_noop 0 (-1) _ H).
Defined.

(** ** The sliding loop *)

Lemma can_move_true (g : grid) (x y : Z) :
  can_move g x y = true <-> valid_cell x y = true /\ get g x y = None.
Proof.
  unfold can_move. rewrite andb_true_iff.
  destruct (get g x y); simpl; intuition congruence.
Qed.

Lemma can_merge_true (g : grid) (x y n : Z) :
  can_merge g x y n = true <->
  valid_cell x y = true /\ exists t, get g x y = Some t /\ number t = n.
Proof.
  unfold can_merge. rewrite andb_true_iff. destruct (get g x y) as [t|].
  - rewrite Z.eqb_eq. split.
    + intros [V E]. eauto.
    + intros [V (t' & E & N)]. injection E as <-. auto.
  - split; [intros [_ H]; discriminate|intros [_ (t & E & _)]; discriminate].
Qed.

(** Moving a tile from [a] to [b] and then from [b] to [c] is moving it
    from [a] to [c], whatever is written at [c]. *)
Lemma put_put_through (g : grid) (tile : Tile) (v : option Tile)
    (xa ya xb yb xc yc : Z) :
  wf_grid g ->
  valid_cell xa ya = true -> valid_cell xb yb = true -> valid_cell xc yc = true ->
  (xa, ya) = (xb, yb) \/ get g xb yb = None ->
  put (put (put (put g xa ya None) xb yb (Some tile)) xb yb None) xc yc v
  = put (put g xa ya None) xc yc v.
Proof.
  intros W Va Vb Vc Hab.
  apply grid_ext; [repeat apply wf_put; exact W..|].
  intros x y V.
  destruct (decide ((xc, yc) = (x, y))) as [E|Nc].
  - injection E as <- <-. rewrite !get_put_eq; auto using wf_put.
  - rewrite !(get_put_ne _ xc yc) by assumption.
    destruct (decide ((xb, yb) = (x, y))) as [E|Nb].
    + injection E as <- <-. rewrite get_put_eq by auto using wf_put.
      destruct Hab as [E|Gb].
      * injection E as -> ->. now rewrite get_put_eq.
      * destruct (decide ((xa, ya) = (xb, yb))) as [E|Na].
        -- injection E as -> ->. now rewrite get_put_eq.
        -- rewrite get_put_ne by assumption. now rewrite Gb.
    + now rewrite !(get_put_ne _ xb yb) by assumption.
Qed.

(** Taking a tile from a cell and putting it back changes nothing. *)
Lemma put_put_back (g : grid) (tile : Tile) (x y : Z) :
  wf_grid g -> valid_cell x y = true -> get g x y = Some tile ->
  put (put g x y None) x y (Some tile) = g.
Proof.
  intros W V G. apply grid_ext; [repeat apply wf_put; exact W|exact W|].
  intros x' y' V'. destruct (decide ((x, y) = (x', y'))) as [E|N].
  - injection E as <- <-. rewrite get_put_eq by auto using wf_put. now rewrite G.
  - now rewrite !get_put_ne by assumption.
Qed.

Section Move.

Variables dir_x dir_y : Z.

Lemma room_bounds (x y : Z) :
  valid_cell x y = true -> 0 <= room dir_x dir_y x y <= 3.
Proof.
  rewrite valid_cell_spec. unfold room. intros H.
  destruct (0 <? dir_x), (dir_x <? 0), (0 <? dir_y), (dir_y <? 0); lia.
Qed.

(** The loop returns for every amount of fuel above [room]: the tile went
    [n] steps, the grid is the old one with the tile taken from its cell and
    put where it stopped, that place was empty unless the tile did not move,
    and the next cell cannot be moved into. *)
Lemma slide_spec (tile : Tile) (fuel : nat) :
  forall (g : grid) (x y : Z),
    wf_grid g -> valid_cell x y = true -> get g x y = Some tile ->
    room dir_x dir_y x y < Z.of_nat fuel ->
    exists n,
      0 <= n /\
      let x' := x + n * dir_x in
      let y' := y + n * dir_y in
      slide fuel dir_x dir_y tile g x y
      = Some (put (put g x y None) x' y' (Some tile), x', y') /\
      valid_cell x' y' = true /\
      (n = 0 \/ (x', y') <> (x, y) /\ get g x' y' = None) /\
      can_move (put (put g x y None) x' y' (Some tile))
               (x' + dir_x) (y' + dir_y) = false.
Proof.
  induction fuel as [|fuel IH]; intros g x y W V G R.
  - pose proof (room_bounds x y V). lia.
  - simpl. destruct (can_move g (x + dir_x) (y + dir_y)) eqn:C.
    + apply can_move_true in C as [V1 G1].
      assert (D : (x, y) <> (x + dir_x, y + dir_y)).
      { intros E. injection E as Ex Ey. rewrite <- Ex, <- Ey in G1. congruence. }
      set (g1 := put (put g x y None) (x + dir_x) (y + dir_y) (Some tile)).
      assert (W1 : wf_grid g1) by (unfold g1; auto using wf_put).
      assert (Gt : get g1 (x + dir_x) (y + dir_y) = Some tile)
        by (unfold g1; apply get_put_eq; auto using wf_put).
      assert (R1 : room dir_x dir_y (x + dir_x) (y + dir_y) < Z.of_nat fuel).
      { apply valid_cell_spec in V, V1. unfold room in *.
        destruct (0 <? dir_x) eqn:A; [lia|].
        destruct (dir_x <? 0) eqn:B; [lia|].
        destruct (0 <? dir_y) eqn:A'; [lia|].
        destruct (dir_y <? 0) eqn:B'; [lia|].
        exfalso. apply D. f_equal; lia. }
      destruct (IH g1 _ _ W1 V1 Gt R1) as (n & Hn & E & V' & Hd & Hc).
      cbv zeta in E, V', Hd, Hc.
      exists (n + 1). split; [lia|]. cbv zeta.
      replace (x + (n + 1) * dir_x) with (x + dir_x + n * dir_x) by lia.
      replace (y + (n + 1) * dir_y) with (y + dir_y + n * dir_y) by lia.
      set (x' := x + dir_x + n * dir_x) in *.
      set (y' := y + dir_y + n * dir_y) in *.
      assert (Q : put (put g1 (x + dir_x) (y + dir_y) None) x' y' (Some tile)
                  = put (put g x y None) x' y' (Some tile))
        by (unfold g1; apply put_put_through; auto).
      rewrite Q in E, Hc.
      split; [exact E|]. split; [exact V'|]. split; [|exact Hc].
      right. destruct Hd as [->|[Nd Gd]].
      * assert (x' = x + dir_x /\ y' = y + dir_y) as [-> ->]
          by (unfold x', y'; lia).
        split; [congruence|exact G1].
      * unfold g1 in Gd. rewrite get_put_ne in Gd by auto.
        destruct (decide ((x, y) = (x', y'))) as [E0|N0].
        -- exfalso. apply D. unfold x', y' in E0. injection E0 as Ex Ey.
           assert (dir_x = 0) by nia. assert (dir_y = 0) by nia.
           f_equal; lia.
        -- rewrite get_put_ne in Gd by auto. split; [congruence|exact Gd].
    + exists 0. split; [lia|]. cbv zeta.
      replace (x + 0 * dir_x) with x by lia.
      replace (y + 0 * dir_y) with y by lia.
      rewrite put_put_back by assumption.
      split; [reflexivity|]. split; [exact V|]. split; [now left|exact C].
Qed.

(** ** One cell of the loop *)

Lemma merge_spec (tile : Tile) (x y : Z) (s : Board) :
  merge dir_x dir_y tile x y s =
  if can_merge (board s) (x + dir_x) (y + dir_y) (number tile) then
    match update_colors (merged tile) with
    | Some e => Raise e (after_merge dir_x dir_y tile x y s)
    | None => Ok (merged tile, x + dir_x, y + dir_y) (after_merge dir_x dir_y tile x y s)
    end
  else Ok (tile, x, y) s.
Proof.
  unfold merge, after_merge, merged, emit, with_board. simpl.
  destruct (can_merge (board s) (x + dir_x) (y + dir_y) (number tile));
    [|reflexivity].
  destruct (number tile * 2 =? 2048); simpl; rewrite <- ?app_assoc; reflexivity.
Qed.

(** The loop body never runs out of fuel, and does one of the above. *)
Lemma move_cell_outcome (s : Board) (x y : Z) :
  wf_grid (board s) -> valid_cell x y = true ->
  cell_outcome dir_x dir_y s x y (move_cell dir_x dir_y (x, y) s).
Proof.
  intros W V. unfold move_cell.
  destruct (get (board s) x y) as [tile|] eqn:G; [|now apply cell_empty].
  destruct (slide_spec tile slide_fuel (board s) x y W V G)
    as (n & Hn & E & V' & Hd & Hc).
  { pose proof (room_bounds x y V). unfold slide_fuel. lia. }
  cbv zeta in E, V', Hd, Hc. rewrite E. rewrite merge_spec.
  change (board (with_board s ?g)) with g.
  fold (landed dir_x dir_y (board s) x y tile n).
  assert (Hfin : forall t x1 y1 s1,
             (if (x1 =? x) && (y1 =? y)
              then Ok tt s1 else Ok tt (animate t x1 y1 s1))
             = Ok tt (finish x y t x1 y1 s1))
    by (intros; unfold finish; destruct (_ && _); reflexivity).
  destruct (can_merge (landed dir_x dir_y (board s) x y tile n)
              (x + n * dir_x + dir_x) (y + n * dir_y + dir_y) (number tile)) eqn:M.
  - destruct (update_colors (merged tile)) as [e|] eqn:U; simpl.
    + now apply cell_merged_raise.
    + rewrite Hfin. now apply (cell_merged dir_x dir_y s x y tile n).
  - simpl. rewrite Hfin. now apply (cell_slid dir_x dir_y s x y tile n).
Qed.

(** The grid after a merge, in terms of the grid before the cell was
    visited. *)
Lemma board_after_merge (s : Board) (x y : Z) (tile : Tile) (n : Z) :
  wf_grid (board s) -> valid_cell x y = true ->
  valid_cell (x + n * dir_x) (y + n * dir_y) = true ->
  valid_cell (x + n * dir_x + dir_x) (y + n * dir_y + dir_y) = true ->
  (n = 0 \/ (x + n * dir_x, y + n * dir_y) <> (x, y) /\
            get (board s) (x + n * dir_x) (y + n * dir_y) = None) ->
  board (after_merge dir_x dir_y tile (x + n * dir_x) (y + n * dir_y)
           (with_board s (landed dir_x dir_y (board s) x y tile n)))
  = put (put (board s) x y None)
      (x + n * dir_x + dir_x) (y + n * dir_y + dir_y) (Some (merged tile)).
Proof.
  intros W V V' V'' Hd. unfold after_merge, landed. simpl.
  apply put_put_through; auto.
  destruct Hd as [->|[_ Gd]]; [left; f_equal; lia|now right].
Qed.

(** ** The loop over the cells *)

(** A property of the board that every visit of a cell maintains holds of
    the state [move] leaves, whether it returns or raises. *)
Lemma for_cells_invariant (I : Board -> Prop) (cells : list (Z * Z)) :
  (forall c s, In c cells -> I s ->
     exists s', final (move_cell dir_x dir_y c s) = Some s' /\ I s') ->
  forall s, I s ->
    exists s', final (for_cells (move_cell dir_x dir_y) cells s) = Some s' /\ I s'.
Proof.
  induction cells as [|c rest IH]; intros Hstep s Hs.
  - exists s. now split.
  - simpl. destruct (Hstep c s (or_introl eq_refl) Hs) as (s1 & E1 & H1).
    destruct (move_cell dir_x dir_y c s) as [[] s1'| e s1'|]; simpl in *.
    + injection E1 as ->. apply IH; [|exact H1].
      intros c' s' Hin. apply Hstep. now right.
    + injection E1 as ->. exists s1. now split.
    + discriminate.
Qed.

End Move.

(** ** Frame facts about the end of the loop body *)

Lemma board_animate (t : Tile) (x y : Z) (s : Board) :
  board (animate t x y s) = board s.
Proof. unfold animate. now destruct (moving s). Qed.

Lemma board_finish (x0 y0 : Z) (t : Tile) (x y : Z) (s : Board) :
  board (finish x0 y0 t x y s) = board s.
Proof. unfold finish. destruct (_ && _); [reflexivity|apply board_animate]. Qed.

(** The grid a visit of a cell leaves: the old grid, or the old grid with
    the tile of the cell taken out and a tile of the same identity, with the
    same or the doubled number, stored at a valid cell. *)
Lemma move_cell_board (dir_x dir_y : Z) (s : Board) (x y : Z) :
  wf_grid (board s) -> valid_cell x y = true ->
  exists s', final (move_cell dir_x dir_y (x, y) s) = Some s' /\
    (board s' = board s \/
     exists tile xf yf tf,
       get (board s) x y = Some tile /\ valid_cell xf yf = true /\
       (tf = tile \/ tf = merged tile) /\
       board s' = put (put (board s) x y None) xf yf (Some tf)).
Proof.
  intros W V.
  destruct (move_cell_outcome dir_x dir_y s x y W V)
    as [G|tile n G Hn V' Hd M|tile n G Hn V' Hd M U|tile n e G Hn V' Hd M U];
    eexists; (split; [reflexivity|]).
  - now left.
  - right. exists tile, (x + n * dir_x), (y + n * dir_y), tile.
    rewrite board_finish. simpl. auto.
  - right. apply can_merge_true in M as [V'' _].
    exists tile, (x + n * dir_x + dir_x), (y + n * dir_y + dir_y), (merged tile).
    rewrite board_finish, board_after_merge by assumption. auto.
  - right. apply can_merge_true in M as [V'' _].
    exists tile, (x + n * dir_x + dir_x), (y + n * dir_y + dir_y), (merged tile).
    rewrite board_after_merge by assumption. auto.
Qed.

(** [move] returns or raises on every 4x4 board and in every direction: the
    fuel of the sliding loop never runs out. *)
Lemma move_total (dir_x dir_y : Z) (s : Board) :
  wf_grid (board s) ->
  exists s', final (move dir_x dir_y s) = Some s' /\ wf_grid (board s').
Proof.
  intros W. unfold move. destruct (moving s); [now exists s|].
  apply (for_cells_invariant dir_x dir_y (fun s => wf_grid (board s)));
    [|exact W].
  intros [x y] s0 Hin W0. apply in_all_cells in Hin.
  destruct (move_cell_board dir_x dir_y s0 x y W0 Hin) as (s' & E & B).
  exists s'. split; [exact E|].
  destruct B as [->|(tile & xf & yf & tf & _ & _ & _ & ->)];
    auto using wf_put.
Qed.

(** The line [2, None, 2, None] moved toward index 0 becomes
    [4, None, None, None], with one merge in the log. *)
Example move_2_0_2_0 :
  exists s',
    move 0 (-1) (fresh_board (grid_x 0 [T 2 0; None; T 2 1; None])) = Ok tt s' /\
    values (board s') = values (grid_x 0 [T 4 1; None; None; None]) /\
    moving s' = true /\
    effects s' =
      [ RemoveWidget (T 2 0); NumberSet 1 4;
        AnimStart (mkTile 1 4) 0 0 true ].
Proof. eexists. split; [vm_compute; reflexivity|]. now repeat split. Qed.

(** ** Tile numbers are powers of two *)

Lemma power_of_two_double (n : Z) : power_of_two n -> power_of_two (n * 2).
Proof.
  intros (k & Hk & ->). exists (k + 1). split; [lia|].
  rewrite Z.pow_add_r by lia. lia.
Qed.

Lemma tiles_ok_put (g : grid) (x y : Z) (v : option Tile) :
  wf_grid g -> valid_cell x y = true -> tiles_ok g ->
  (forall t, v = Some t -> power_of_two (number t)) ->
  tiles_ok (put g x y v).
Proof.
  intros W V H Hv x' y' t V' G.
  destruct (decide ((x, y) = (x', y'))) as [E|N].
  - injection E as <- <-. rewrite get_put_eq in G by assumption. now apply Hv.
  - rewrite get_put_ne in G by assumption. eapply H; eauto.
Qed.

Lemma move_cell_tiles_ok (dir_x dir_y : Z) (c : Z * Z) (s : Board) :
  valid_cell (fst c) (snd c) = true ->
  wf_grid (board s) /\ tiles_ok (board s) ->
  exists s', final (move_cell dir_x dir_y c s) = Some s' /\
             wf_grid (board s') /\ tiles_ok (board s').
Proof.
  destruct c as [x y]. simpl. intros V [W H].
  destruct (move_cell_board dir_x dir_y s x y W V) as (s' & E & B).
  exists s'. split; [exact E|].
  destruct B as [->|(tile & xf & yf & tf & G & Vf & Ht & ->)]; [now split|].
  split; [auto using wf_put|].
  apply tiles_ok_put; auto using wf_put.
  - apply tiles_ok_put; auto. discriminate.
  - intros t [= <-]. pose proof (H x y tile V G) as P.
    destruct Ht as [->| ->]; [exact P|now apply power_of_two_double].
Qed.

(** C8: every tile number is a power of two, at least 2.  [reset]
    establishes it from any state; a spawn keeps it (the new tile has number
    2, and a failed spawn changes nothing); a move in any direction keeps it,
    in the state it returns with and also in the state it leaves when
    [update_colors] raises, since it only ever doubles a number. *)
Theorem tiles_stay_powers_of_two (s : Board) :
  (forall r1 r2, exists s',
     reset r1 r2 s = Ok tt s' /\ wf_grid (board s') /\ tiles_ok (board s')) /\
  (wf_grid (board s) -> tiles_ok (board s) ->
   (forall r, exists s',
      final (new_tile r s) = Some s' /\
      wf_grid (board s') /\ tiles_ok (board s')) /\
   (forall dir_x dir_y, exists s',
      final (move dir_x dir_y s) = Some s' /\
      wf_grid (board s') /\ tiles_ok (board s'))).
Proof.
  split.
  - intros r1 r2.
    destruct (reset_spec r1 r2 s)
      as (s' & x1 & y1 & x2 & y2 & t1 & t2 & E & W & V1 & V2 & D
          & G1 & N1 & G2 & N2 & Hrest).
    exists s'. split; [exact E|]. split; [exact W|].
    assert (P2 : power_of_two 2) by (exists 1; split; [lia|reflexivity]).
    intros x y t V G.
    destruct (decide ((x, y) = (x1, y1))) as [E1|D1].
    { injection E1 as -> ->. rewrite G1 in G. injection G as <-. now rewrite N1. }
    destruct (decide ((x, y) = (x2, y2))) as [E2|D2].
    { injection E2 as -> ->. rewrite G2 in G. injection G as <-. now rewrite N2. }
    rewrite (Hrest x y V D1 D2) in G. discriminate.
  - intros W H. split.
    + intros r. destruct (empty_cells (board s)) as [|c l] eqn:Ec.
      * exists s. unfold new_tile. rewrite Ec. simpl. now split.
      * destruct (new_tile_spawns r s) as (x & y & s' & E & V & G & B & _);
          [congruence|].
        exists s'. rewrite E. split; [reflexivity|]. rewrite B.
        split; [now apply wf_put|].
        apply tiles_ok_put; auto. intros t [= <-].
        exists 1. split; [lia|reflexivity].
    + intros dir_x dir_y. unfold move. destruct (moving s).
      * exists s. now split.
      * apply (for_cells_invariant dir_x dir_y
                 (fun s => wf_grid (board s) /\ tiles_ok (board s))); [|now split].
        intros c s0 Hin Hs0. apply move_cell_tiles_ok; [|exact Hs0].
        destruct c as [x y]. now apply in_all_cells in Hin.
Qed.

Lemma tiles_ok_by_scan (g : grid) :
  forallb
    (fun c =>
       match get g (fst c) (snd c) with
       | None => true
       | Some t =>
           existsb (fun k => number t =? 2 ^ k) [1; 2; 3; 4; 5; 6; 7; 8; 9; 10; 11]
       end)
    (all_cells false false) = true ->
  tiles_ok g.
Proof.
  intros H x y t V G. rewrite forallb_forall in H.
  apply in_all_cells with (fx := false) (fy := false) in V.
  apply H in V. cbn [fst snd] in V. rewrite G in V.
  apply existsb_exists in V as (k & Hk & E). apply Z.eqb_eq in E.
  exists k. split; [|exact E]. simpl in Hk. lia.
Qed.

Lemma tiles_stay_powers_of_two_witness :
  exists s',
    final (move 0 (-1) (fresh_board full_example)) = Some s' /\
    wf_grid (board s') /\ tiles_ok (board s').
Proof.
  apply (proj2 (tiles_stay_powers_of_two (fresh_board full_example))).
  - apply wf_gridb_true. reflexivity.
  - apply tiles_ok_by_scan. reflexivity.
Defined.

(** ** The sum of the tiles *)

Lemma unit_direction_abs (dir_x dir_y : Z) :
  unit_direction dir_x dir_y -> Z.abs dir_x + Z.abs dir_y = 1.
Proof. intros [E|[E|[E|E]]]; injection E as -> ->; reflexivity. Qed.

Lemma row_sum_insert (row : list (option Tile)) (i : nat) (c v : option Tile) :
  row !! i = Some c ->
  row_sum (<[i := v]> row) = row_sum row - tile_value c + tile_value v.
Proof.
  revert i. induction row as [|c0 row IH]; intros i E; [discriminate|].
  destruct i as [|i]; simpl in *.
  - injection E as ->. lia.
  - rewrite (IH i E). lia.
Qed.

Lemma grid_sum_alter (f : list (option Tile) -> list (option Tile))
    (g : grid) (i : nat) (row : list (option Tile)) :
  g !! i = Some row ->
  grid_sum (alter f i g) = grid_sum g - row_sum row + row_sum (f row).
Proof.
  revert i. induction g as [|r0 g IH]; intros i E; [discriminate|].
  destruct i as [|i].
  - injection E as ->. change (alter f 0%nat (row :: g)) with (f row :: g).
    simpl. lia.
  - change (alter f (S i) (r0 :: g)) with (r0 :: alter f i g).
    change ((r0 :: g) !! S i) with (g !! i) in E.
    simpl. rewrite (IH i E). lia.
Qed.

Lemma grid_sum_put (g : grid) (x y : Z) (v : option Tile) :
  wf_grid g -> valid_cell x y = true ->
  grid_sum (put g x y v) = grid_sum g - tile_value (get g x y) + tile_value v.
Proof.
  intros [Hl Hr] V. apply valid_cell_spec in V. unfold put, get.
  destruct (lookup_lt_is_Some_2 g (Z.to_nat x)) as [row E]; [lia|].
  rewrite (grid_sum_alter _ _ _ _ E), E.
  rewrite Forall_lookup in Hr. pose proof (Hr _ _ E) as Lr.
  destruct (lookup_lt_is_Some_2 row (Z.to_nat y)) as [c Ec]; [lia|].
  rewrite (row_sum_insert _ _ _ _ Ec), Ec. lia.
Qed.

Lemma move_cell_sum (dir_x dir_y : Z) (total : Z) (c : Z * Z) (s : Board) :
  unit_direction dir_x dir_y ->
  valid_cell (fst c) (snd c) = true ->
  wf_grid (board s) /\ grid_sum (board s) = total ->
  exists s', final (move_cell dir_x dir_y c s) = Some s' /\
             wf_grid (board s') /\ grid_sum (board s') = total.
Proof.
  destruct c as [x y]. cbn [fst snd]. intros U V [W <-].
  apply unit_direction_abs in U.
  assert (Hslid : forall tile n,
            get (board s) x y = Some tile ->
            valid_cell (x + n * dir_x) (y + n * dir_y) = true ->
            (n = 0 \/ (x + n * dir_x, y + n * dir_y) <> (x, y) /\
                      get (board s) (x + n * dir_x) (y + n * dir_y) = None) ->
            get (put (board s) x y None) (x + n * dir_x) (y + n * dir_y) = None).
  { intros tile n G V' [->|[N G']].
    - replace (x + 0 * dir_x) with x by lia. replace (y + 0 * dir_y) with y by lia.
      now apply get_put_eq.
    - rewrite get_put_ne by auto. exact G'. }
  assert (Hmerged : forall tile n,
            get (board s) x y = Some tile ->
            valid_cell (x + n * dir_x) (y + n * dir_y) = true ->
            (n = 0 \/ (x + n * dir_x, y + n * dir_y) <> (x, y) /\
                      get (board s) (x + n * dir_x) (y + n * dir_y) = None) ->
            can_merge (landed dir_x dir_y (board s) x y tile n)
              (x + n * dir_x + dir_x) (y + n * dir_y + dir_y) (number tile) = true ->
            valid_cell (x + n * dir_x + dir_x) (y + n * dir_y + dir_y) = true /\
            grid_sum (put (put (board s) x y None)
                        (x + n * dir_x + dir_x) (y + n * dir_y + dir_y)
                        (Some (merged tile)))
            = grid_sum (board s)).
  { intros tile n G V' Hd M.
    apply can_merge_true in M as (V'' & t' & G' & N'). split; [exact V''|].
    unfold landed in G'.
    rewrite get_put_ne in G' by (auto; intros E; injection E; lia).
    rewrite !grid_sum_put, G', G by auto using wf_put. simpl. lia. }
  destruct (move_cell_outcome dir_x dir_y s x y W V)
    as [G|tile n G Hn V' Hd M|tile n G Hn V' Hd M C|tile n e G Hn V' Hd M C];
    eexists; (split; [reflexivity|]).
  - now split.
  - rewrite board_finish. simpl. unfold landed.
    split; [auto using wf_put|].
    rewrite !grid_sum_put, (Hslid tile n), G by auto using wf_put. simpl. lia.
  - destruct (Hmerged tile n G V' Hd M) as [V'' S].
    rewrite board_finish, board_after_merge by assumption.
    split; [auto using wf_put|exact S].
  - destruct (Hmerged tile n G V' Hd M) as [V'' S].
    rewrite board_after_merge by assumption.
    split; [auto using wf_put|exact S].
Qed.

(** C9: in each of the four unit directions [move] leaves the sum of the
    tile numbers as it was: a slide carries a number to another cell, and a
    merge puts one tile of number [2 * v] in the place of two tiles of number
    [v].  This is so in the state [move] returns with and in the state it
    leaves when [update_colors] raises. *)
Theorem move_preserves_sum (dir_x dir_y : Z) (s : Board) :
  wf_grid (board s) -> unit_direction dir_x dir_y ->
  exists s', final (move dir_x dir_y s) = Some s' /\
             grid_sum (board s') = grid_sum (board s).
Proof.
  intros W U. unfold move. destruct (moving s).
  - exists s. now split.
  - destruct (for_cells_invariant dir_x dir_y
                (fun s' => wf_grid (board s') /\
                           grid_sum (board s') = grid_sum (board s))
                (all_cells (0 <? dir_x) (0 <? dir_y))) with (s := s)
      as (s' & E & _ & S); [|now split|now exists s'].
    intros c s0 Hin Hs0. apply move_cell_sum; [exact U| |exact Hs0].
    destruct c as [x y]. now apply in_all_cells in Hin.
Qed.

Lemma move_preserves_sum_witness :
  exists s', final (move 0 (-1) (fresh_board sum_example)) = Some s' /\
             grid_sum (board s') = grid_sum (board (fresh_board sum_example)).
Proof.
  apply (move_preserves_sum 0 (-1) (fresh_board sum_example)).
  - apply wf_gridb_true. reflexivity.
  - right. right. left. reflexivity.
Defined.

(** ** The zero direction *)

Lemma update_colors_double (t : Tile) :
  (exists k, 1 <= k <= 10 /\ number t = 2 ^ k) ->
  update_colors (merged t) = None.
Proof.
  intros (k & Hk & E). unfold update_colors, merged. simpl. rewrite E.
  assert (C : k = 1 \/ k = 2 \/ k = 3 \/ k = 4 \/ k = 5 \/
              k = 6 \/ k = 7 \/ k = 8 \/ k = 9 \/ k = 10) by lia.
  repeat (destruct C as [->|C]; [reflexivity|]). now subst k.
Qed.

Lemma all_cells_nodup (fx fy : bool) : List.NoDup (all_cells fx fy).
Proof.
  destruct fx, fy; repeat (constructor; [simpl; intuition congruence|]);
    constructor.
Qed.

(** At one cell, the zero direction makes the tile merge with itself. *)
Lemma move_cell_zero (s : Board) (x y : Z) :
  wf_grid (board s) -> valid_cell x y = true ->
  (forall t, get (board s) x y = Some t -> update_colors (merged t) = None) ->
  exists s' new,
    move_cell 0 0 (x, y) s = Ok tt s' /\
    wf_grid (board s') /\
    get (board s') x y = option_map merged (get (board s) x y) /\
    (forall x' y', valid_cell x' y' = true -> (x, y) <> (x', y') ->
       get (board s') x' y' = get (board s) x' y') /\
    moving s' = moving s /\
    effects s' = effects s ++ new /\ existsb is_animation new = false.
Proof.
  intros W V Hu.
  pose proof (move_cell_outcome 0 0 s x y W V) as O.
  remember (move_cell 0 0 (x, y) s) as o eqn:Eo. clear Eo.
  destruct O as [G|tile n G Hn V' Hd M|tile n G Hn V' Hd M U|tile n e G Hn V' Hd M U].
  - exists s, []. rewrite G, app_nil_r. simpl. auto 10.
  - exfalso. unfold landed in M.
    assert (M' : can_merge (put (put (board s) x y None)
                              (x + n * 0) (y + n * 0) (Some tile))
                   (x + n * 0 + 0) (y + n * 0 + 0) (number tile) = true).
    { apply can_merge_true. rewrite !Z.add_0_r. split; [exact V'|].
      exists tile. split; [|reflexivity].
      apply get_put_eq; auto using wf_put. }
    congruence.
  - assert (Ex : x + n * 0 + 0 = x) by lia. assert (Ey : y + n * 0 + 0 = y) by lia.
    assert (B := board_after_merge 0 0 s x y tile n W V V').
    rewrite Ex, Ey in B |- *. specialize (B V Hd).
    eexists.
    exists ([RemoveWidget
               (get (put (landed 0 0 (board s) x y tile n)
                       (x + n * 0) (y + n * 0) None) x y);
             NumberSet (uid tile) (number tile * 2)] ++
            (if number tile * 2 =? 2048 then [Print "you win the game."] else [])).
    unfold finish. rewrite !Z.eqb_refl. simpl andb. cbv iota.
    split; [reflexivity|]. rewrite B, G.
    split; [auto using wf_put|].
    split; [apply get_put_eq; auto using wf_put|].
    split; [intros x' y' Vc N; now rewrite !get_put_ne by auto|].
    split; [reflexivity|].
    split.
    + unfold after_merge. simpl. rewrite !Z.add_0_r.
      replace (x + n * 0) with x by lia. replace (y + n * 0) with y by lia.
      reflexivity.
    + simpl. now destruct (number tile * 2 =? 2048).
  - rewrite (Hu tile G) in U. discriminate.
Qed.

Lemma for_cells_zero (cells : list (Z * Z)) :
  List.NoDup cells ->
  (forall c, In c cells -> valid_cell (fst c) (snd c) = true) ->
  forall s,
    wf_grid (board s) ->
    (forall x y t, In (x, y) cells -> get (board s) x y = Some t ->
       update_colors (merged t) = None) ->
    exists s' new,
      for_cells (move_cell 0 0) cells s = Ok tt s' /\
      wf_grid (board s') /\
      (forall x y, In (x, y) cells ->
         get (board s') x y = option_map merged (get (board s) x y)) /\
      (forall x y, valid_cell x y = true -> ~ In (x, y) cells ->
         get (board s') x y = get (board s) x y) /\
      moving s' = moving s /\
      effects s' = effects s ++ new /\ existsb is_animation new = false.
Proof.
  induction cells as [|[cx cy] rest IH]; intros Hnd Hv s W Hu.
  - exists s, []. rewrite app_nil_r. simpl. intuition.
  - apply List.NoDup_cons_iff in Hnd as [Hnot Hnd].
    pose proof (Hv (cx, cy) (or_introl eq_refl)) as V. simpl in V.
    destruct (move_cell_zero s cx cy W V) as (s1 & new1 & E1 & W1 & Gc & Go & M1 & L1 & A1).
    { intros t. apply Hu. now left. }
    destruct (IH Hnd (fun c Hin => Hv c (or_intror Hin)) s1 W1)
      as (s2 & new2 & E2 & W2 & Gin & Gout & M2 & L2 & A2).
    { intros x y t Hin G. apply (Hu x y); [now right|].
      rewrite <- G. symmetry. apply Go.
      - apply (Hv (x, y)). now right.
      - intros E. injection E as <- <-. contradiction. }
    exists s2, (new1 ++ new2).
    change (for_cells (move_cell 0 0) ((cx, cy) :: rest) s)
      with (bind (move_cell 0 0 (cx, cy) s)
              (fun _ s => for_cells (move_cell 0 0) rest s)).
    rewrite E1. cbn [bind].
    split; [exact E2|]. split; [exact W2|].
    split; [|split; [|split; [congruence|split]]].
    + intros x y [E|Hin].
      * injection E as <- <-. rewrite Gout by assumption. exact Gc.
      * rewrite Gin by assumption. f_equal. apply Go.
        -- apply (Hv (x, y)). now right.
        -- intros E. injection E as <- <-. contradiction.
    + intros x y Vc Hn.
      rewrite Gout; [|exact Vc|intros Hin; apply Hn; now right].
      apply Go; [exact Vc|].
      intros E. apply Hn. left. exact E.
    + rewrite L2, L1. now rewrite app_assoc.
    + rewrite existsb_app, A1, A2. reflexivity.
Qed.

(** [move(0, 0)] is not rejected.  On a board whose [moving] flag is unset
    and whose tile numbers are all among 2, 4, ..., 1024, it returns with
    every cell occupied exactly as before, every tile the same tile with its
    number doubled, [moving] still unset, and a log that has gained no
    animation, hence no spawn callback. *)
Lemma move_zero_doubles (s : Board) :
  wf_grid (board s) -> moving s = false -> tiles_below_2048 (board s) ->
  exists s' new,
    move 0 0 s = Ok tt s' /\
    wf_grid (board s') /\
    (forall x y, valid_cell x y = true ->
       get (board s') x y = option_map merged (get (board s) x y)) /\
    moving s' = false /\
    effects s' = effects s ++ new /\ existsb is_animation new = false.
Proof.
  intros W M H. unfold move. rewrite M.
  change (0 <? 0) with false.
  destruct (for_cells_zero (all_cells false false)) with (s := s)
    as (s' & new & E & W' & Gin & _ & M' & L & A).
  - apply all_cells_nodup.
  - intros [x y] Hin. now apply in_all_cells in Hin.
  - exact W.
  - intros x y t Hin G. apply update_colors_double.
    apply in_all_cells in Hin. eapply H; eauto.
  - exists s', new. split; [exact E|]. split; [exact W'|].
    split; [|split; [congruence|split; assumption]].
    intros x y V. apply Gin. now apply in_all_cells.
Qed.

Lemma tiles_below_2048_by_scan (g : grid) :
  forallb
    (fun c =>
       match get g (fst c) (snd c) with
       | None => true
       | Some t =>
           existsb (fun k => number t =? 2 ^ k) [1; 2; 3; 4; 5; 6; 7; 8; 9; 10]
       end)
    (all_cells false false) = true ->
  tiles_below_2048 g.
Proof.
  intros H x y t V G. rewrite forallb_forall in H.
  apply in_all_cells with (fx := false) (fy := false) in V.
  apply H in V. cbn [fst snd] in V. rewrite G in V.
  apply existsb_exists in V as (k & Hk & E). apply Z.eqb_eq in E.
  exists k. split; [|exact E]. simpl in Hk. lia.
Qed.

Lemma move_zero_doubles_witness :
  exists s' new,
    move 0 0 (fresh_board sum_example) = Ok tt s' /\
    wf_grid (board s') /\
    (forall x y, valid_cell x y = true ->
       get (board s') x y
       = option_map merged (get (board (fresh_board sum_example)) x y)) /\
    moving s' = false /\
    effects s' = effects (fresh_board sum_example) ++ new /\
    existsb is_animation new = false.
Proof.
  apply (move_zero_doubles (fresh_board sum_example)).
  - apply wf_gridb_true. reflexivity.
  - reflexivity.
  - apply tiles_below_2048_by_scan. reflexivity.
Defined.


(** ** Merges and the identity of tiles *)


Lemma doublings_app (u : nat) (l1 l2 : list effect) :
  doublings u (l1 ++ l2) = (doublings u l1 + doublings u l2)%nat.
Proof. unfold doublings. now rewrite List.filter_app, List.length_app. Qed.

Lemma removals_app (u : nat) (l1 l2 : list effect) :
  removals u (l1 ++ l2) = (removals u l1 + removals u l2)%nat.
Proof. unfold removals. now rewrite List.filter_app, List.length_app. Qed.

(** The grid with the tile of [(x, y)] taken out and a tile of the same
    identity stored at [(xf, yf)]. *)
Section Carried.

Variables (g : grid) (x y xf yf : Z) (tile tf : Tile).
Hypothesis W : wf_grid g.
Hypothesis V : valid_cell x y = true.
Hypothesis Vf : valid_cell xf yf = true.
Hypothesis G : get g x y = Some tile.
Hypothesis U : uid tf = uid tile.
Hypothesis D : distinct_tiles g.

Local Abbreviation g' := (put (put g x y None) xf yf (Some tf)).

Lemma carried_get (x' y' : Z) (t : Tile) :
  valid_cell x' y' = true -> get g' x' y' = Some t ->
  (x', y') = (xf, yf) /\ t = tf \/
  (x', y') <> (xf, yf) /\ (x', y') <> (x, y) /\ get g x' y' = Some t.
Proof.
  intros V' G'.
  destruct (decide ((xf, yf) = (x', y'))) as [E|N].
  - injection E as <- <-. rewrite get_put_eq in G' by auto using wf_put.
    left. split; [reflexivity|congruence].
  - rewrite get_put_ne in G' by assumption.
    destruct (decide ((x, y) = (x', y'))) as [E|N'].
    + injection E as <- <-. rewrite get_put_eq in G' by assumption. discriminate.
    + rewrite get_put_ne in G' by assumption. right. repeat split; congruence.
Qed.

Lemma carried_on_board (u : nat) : on_board u g' -> on_board u g.
Proof.
  intros (x' & y' & t & V' & G' & Eu).
  destruct (carried_get x' y' t V' G') as [[_ ->]|(_ & _ & G0)].
  - exists x, y, tile. repeat split; [exact V|exact G|congruence].
  - exists x', y', t. now repeat split.
Qed.

Lemma carried_distinct : distinct_tiles g'.
Proof.
  intros xa ya xb yb ta tb Va Vb Ga Gb Eu.
  destruct (carried_get xa ya ta Va Ga) as [[Ea ->]|(Na & Na' & Ga0)];
    destruct (carried_get xb yb tb Vb Gb) as [[Eb ->]|(Nb & Nb' & Gb0)].
  - congruence.
  - exfalso. apply Nb'. symmetry.
    apply (D x y xb yb tile tb); auto. congruence.
  - exfalso. apply Na'. symmetry.
    apply (D x y xa ya tile ta); auto. congruence.
  - apply (D xa ya xb yb ta tb); auto.
Qed.

(** A tile that stood at the cell the carried tile lands on is gone. *)
Lemma carried_replaces (t' : Tile) :
  (x, y) <> (xf, yf) -> get g xf yf = Some t' -> ~ on_board (uid t') g'.
Proof.
  intros N Gf (x' & y' & t & V' & G' & Eu).
  destruct (carried_get x' y' t V' G') as [[_ ->]|(N1 & N2 & G0)].
  - apply N. apply (D x y xf yf tile t'); auto. congruence.
  - apply N1. apply (D x' y' xf yf t t'); auto.
Qed.

Lemma carried_frame (x' y' : Z) :
  valid_cell x' y' = true -> (x', y') <> (x, y) -> (x', y') <> (xf, yf) ->
  get g' x' y' = get g x' y'.
Proof.
  intros V' N N'. now rewrite !get_put_ne by (auto; congruence).
Qed.

End Carried.

Lemma effects_finish (x0 y0 : Z) (t : Tile) (x y : Z) (s : Board) :
  exists a,
    effects (finish x0 y0 t x y s) = effects s ++ a /\
    forall u, doublings u a = 0%nat /\ removals u a = 0%nat.
Proof.
  unfold finish, animate.
  destruct ((x =? x0) && (y =? y0)); [|destruct (moving s)].
  - exists []. now rewrite app_nil_r.
  - eexists. split; [reflexivity|]. now split.
  - eexists. split; [reflexivity|]. now split.
Qed.

(** In a unit direction the cell ahead is another cell, and not the cell the
    tile started from. *)
Lemma unit_step_apart (dir_x dir_y x y n : Z) :
  unit_direction dir_x dir_y -> 0 <= n ->
  (x + n * dir_x + dir_x, y + n * dir_y + dir_y) <> (x + n * dir_x, y + n * dir_y) /\
  (x, y) <> (x + n * dir_x + dir_x, y + n * dir_y + dir_y).
Proof.
  intros [E|[E|[E|E]]] Hn; injection E as -> ->;
    split; intros E'; injection E'; lia.
Qed.

(** The state the merge block leaves, seen from the grid before the visit:
    the tile [t'] ahead is removed, the visited tile takes its cell and is
    doubled. *)
Lemma merged_state (dir_x dir_y : Z) (s : Board) (x y n : Z) (tile : Tile) :
  unit_direction dir_x dir_y -> wf_grid (board s) -> valid_cell x y = true ->
  get (board s) x y = Some tile -> 0 <= n ->
  valid_cell (x + n * dir_x) (y + n * dir_y) = true ->
  (n = 0 \/ (x + n * dir_x, y + n * dir_y) <> (x, y) /\
            get (board s) (x + n * dir_x) (y + n * dir_y) = None) ->
  can_merge (landed dir_x dir_y (board s) x y tile n)
    (x + n * dir_x + dir_x) (y + n * dir_y + dir_y) (number tile) = true ->
  let sm := after_merge dir_x dir_y tile (x + n * dir_x) (y + n * dir_y)
              (with_board s (landed dir_x dir_y (board s) x y tile n)) in
  let xf := x + n * dir_x + dir_x in
  let yf := y + n * dir_y + dir_y in
  exists t' w,
    valid_cell xf yf = true /\ (x, y) <> (xf, yf) /\
    get (board s) xf yf = Some t' /\
    board sm = put (put (board s) x y None) xf yf (Some (merged tile)) /\
    effects sm = effects s ++
                 [RemoveWidget (Some t'); NumberSet (uid tile) (number tile * 2)]
                 ++ w /\
    forall u, doublings u w = 0%nat /\ removals u w = 0%nat.
Proof.
  intros U W V G Hn V' Hd M sm xf yf.
  destruct (unit_step_apart dir_x dir_y x y n U Hn) as [N1 N2].
  apply can_merge_true in M as (Vf & t' & G' & _).
  assert (Gl : get (put (landed dir_x dir_y (board s) x y tile n)
                      (x + n * dir_x) (y + n * dir_y) None) xf yf = Some t').
  { rewrite get_put_ne by (auto; congruence). exact G'. }
  unfold landed in G'. rewrite !get_put_ne in G' by (auto; congruence).
  exists t', (if number tile * 2 =? 2048 then [Print "you win the game."] else []).
  split; [exact Vf|]. split; [exact N2|]. split; [exact G'|].
  split; [now apply board_after_merge|]. split.
  - unfold sm, after_merge. cbn [effects board with_board].
    fold xf yf. now rewrite Gl.
  - intros u. now destruct (number tile * 2 =? 2048).
Qed.

(** One visit of a cell, as far as merges and identities go. *)
Lemma move_cell_merges (dir_x dir_y : Z) (s : Board) (x y : Z) :
  unit_direction dir_x dir_y -> wf_grid (board s) -> valid_cell x y = true ->
  distinct_tiles (board s) ->
  exists s1 new1,
    final (move_cell dir_x dir_y (x, y) s) = Some s1 /\
    effects s1 = effects s ++ new1 /\
    wf_grid (board s1) /\ distinct_tiles (board s1) /\
    (forall u, on_board u (board s1) -> on_board u (board s)) /\
    (forall x' y', valid_cell x' y' = true ->
       (forall m, 0 <= m -> (x', y') <> (x + m * dir_x, y + m * dir_y)) ->
       get (board s1) x' y' = get (board s) x' y') /\
    ((forall u, doublings u new1 = 0%nat /\ removals u new1 = 0%nat) \/
     exists tile t',
       get (board s) x y = Some tile /\
       on_board (uid t') (board s) /\ ~ on_board (uid t') (board s1) /\
       forall u,
         doublings u new1 = (if Nat.eqb (uid tile) u then 1 else 0)%nat /\
         removals u new1 = (if Nat.eqb (uid t') u then 1 else 0)%nat).
Proof.
  intros U W V D.
  destruct (move_cell_outcome dir_x dir_y s x y W V)
    as [G|tile n G Hn V' Hd M|tile n G Hn V' Hd M C|tile n e G Hn V' Hd M C].
  - exists s, []. rewrite app_nil_r.
    split; [reflexivity|]. split; [reflexivity|]. split; [exact W|].
    split; [exact D|]. split; [auto|]. split; [auto|]. left. now split.
  - destruct (effects_finish x y tile (x + n * dir_x) (y + n * dir_y)
                (with_board s (landed dir_x dir_y (board s) x y tile n)))
      as (a & Ea & Za).
    eexists. exists a. split; [reflexivity|]. split; [exact Ea|].
    rewrite board_finish. cbn [board with_board]. unfold landed.
    split; [auto using wf_put|].
    split; [now apply (carried_distinct (board s) x y _ _ tile tile)|].
    split; [intros u; now apply (carried_on_board (board s) x y _ _ tile tile)|].
    split; [|now left].
    intros x' y' Vc Hm. apply carried_frame; auto.
    intros E. apply (Hm 0); [lia|]. rewrite E. f_equal; lia.
  - destruct (merged_state dir_x dir_y s x y n tile U W V G Hn V' Hd M)
      as (t' & w & Vf & Nf & Gf & B & L & Zw).
    destruct (effects_finish x y (merged tile)
                (x + n * dir_x + dir_x) (y + n * dir_y + dir_y)
                (after_merge dir_x dir_y tile (x + n * dir_x) (y + n * dir_y)
                   (with_board s (landed dir_x dir_y (board s) x y tile n))))
      as (a & Ea & Za).
    eexists.
    exists ([RemoveWidget (Some t'); NumberSet (uid tile) (number tile * 2)]
            ++ w ++ a).
    split; [reflexivity|].
    split; [rewrite Ea, L, <- !app_assoc; reflexivity|].
    rewrite board_finish, B.
    split; [auto using wf_put|].
    split; [now apply (carried_distinct (board s) x y _ _ tile (merged tile))|].
    split; [intros u;
            now apply (carried_on_board (board s) x y _ _ tile (merged tile))|].
    split.
    + intros x' y' Vc Hm. apply carried_frame; auto; intros E.
      * apply (Hm 0); [lia|]. rewrite E. f_equal; lia.
      * apply (Hm (n + 1)); [lia|]. rewrite E. f_equal; lia.
    + right. exists tile, t'. split; [exact G|].
      split; [exists (x + n * dir_x + dir_x), (y + n * dir_y + dir_y), t'; auto|].
      split; [now apply (carried_replaces (board s) x y _ _ tile (merged tile))|].
      intros u. rewrite doublings_app, removals_app, doublings_app, removals_app.
      destruct (Zw u) as [-> ->]. destruct (Za u) as [-> ->].
      unfold doublings, removals. simpl.
      destruct (Nat.eqb (uid tile) u), (Nat.eqb (uid t') u); split; reflexivity.
  - destruct (merged_state dir_x dir_y s x y n tile U W V G Hn V' Hd M)
      as (t' & w & Vf & Nf & Gf & B & L & Zw).
    eexists.
    exists ([RemoveWidget (Some t'); NumberSet (uid tile) (number tile * 2)] ++ w).
    split; [reflexivity|]. split; [exact L|].
    rewrite B.
    split; [auto using wf_put|].
    split; [now apply (carried_distinct (board s) x y _ _ tile (merged tile))|].
    split; [intros u;
            now apply (carried_on_board (board s) x y _ _ tile (merged tile))|].
    split.
    + intros x' y' Vc Hm. apply carried_frame; auto; intros E.
      * apply (Hm 0); [lia|]. rewrite E. f_equal; lia.
      * apply (Hm (n + 1)); [lia|]. rewrite E. f_equal; lia.
    + right. exists tile, t'. split; [exact G|].
      split; [exists (x + n * dir_x + dir_x), (y + n * dir_y + dir_y), t'; auto|].
      split; [now apply (carried_replaces (board s) x y _ _ tile (merged tile))|].
      intros u. rewrite doublings_app, removals_app.
      destruct (Zw u) as [-> ->].
      unfold doublings, removals. simpl.
      destruct (Nat.eqb (uid tile) u), (Nat.eqb (uid t') u); split; reflexivity.
Qed.

Lemma all_cells_ahead_first (dir_x dir_y : Z) :
  unit_direction dir_x dir_y ->
  ahead_first dir_x dir_y (all_cells (0 <? dir_x) (0 <? dir_y)).
Proof.
  intros [E|[E|[E|E]]]; injection E as -> ->; simpl;
    repeat (split;
            [intros x' y' Hin m Hm E; injection E as Ex Ey;
             repeat (destruct Hin as [Hin|Hin];
                     [injection Hin as <- <-; lia|]);
             destruct Hin|]);
    exact I.
Qed.

Lemma for_cells_merges (dir_x dir_y : Z) :
  unit_direction dir_x dir_y ->
  forall cells,
    ahead_first dir_x dir_y cells ->
    (forall c, In c cells -> valid_cell (fst c) (snd c) = true) ->
    forall s,
      wf_grid (board s) -> distinct_tiles (board s) ->
      exists s' new,
        final (for_cells (move_cell dir_x dir_y) cells s) = Some s' /\
        effects s' = effects s ++ new /\
        (forall u, on_board u (board s') -> on_board u (board s)) /\
        (forall u, (doublings u new <= 1)%nat /\ (removals u new <= 1)%nat) /\
        (forall u, (1 <= doublings u new)%nat ->
           exists x y t,
             In (x, y) cells /\ get (board s) x y = Some t /\ uid t = u) /\
        (forall u, (1 <= removals u new)%nat ->
           on_board u (board s) /\ ~ on_board u (board s')).
Proof.
  intros U. induction cells as [|[cx cy] rest IH]; intros Ha Hv s W D.
  - exists s, []. rewrite app_nil_r. simpl.
    split; [reflexivity|]. split; [reflexivity|]. split; [auto|].
    split; [intros u; unfold doublings, removals; simpl; split; lia|].
    split; intros u Hu; unfold doublings, removals in Hu; simpl in Hu; lia.
  - destruct Ha as [Hfirst Ha]. cbn [fst snd] in Hfirst.
    pose proof (Hv (cx, cy) (or_introl eq_refl)) as V. cbn [fst snd] in V.
    destruct (move_cell_merges dir_x dir_y s cx cy U W V D)
      as (s1 & new1 & E1 & L1 & W1 & D1 & B1 & F1 & Shape).
    assert (Frest : forall x y, In (x, y) rest ->
                      get (board s1) x y = get (board s) x y).
    { intros x y Hin. apply F1; [apply (Hv (x, y)); now right|].
      now apply Hfirst. }
    assert (Hne : forall x y, In (x, y) rest -> (x, y) <> (cx, cy)).
    { intros x y Hin E. apply (Hfirst x y Hin 0); [lia|].
      rewrite E. f_equal; lia. }
    change (for_cells (move_cell dir_x dir_y) ((cx, cy) :: rest) s)
      with (bind (move_cell dir_x dir_y (cx, cy) s)
              (fun _ s => for_cells (move_cell dir_x dir_y) rest s)).
    destruct (move_cell dir_x dir_y (cx, cy) s) as [[] s1'|e s1'|];
      cbn [final bind] in *; [| |discriminate]; injection E1 as ->.
    + destruct (IH Ha (fun c Hin => Hv c (or_intror Hin)) s1 W1 D1)
        as (s2 & new2 & E2 & L2 & B2 & C2 & Dbl2 & Rem2).
      exists s2, (new1 ++ new2).
      split; [exact E2|]. split; [rewrite L2, L1; now rewrite app_assoc|].
      split; [auto|].
      assert (Hd2 : forall u tile,
                get (board s) cx cy = Some tile -> uid tile = u ->
                doublings u new2 = 0%nat).
      { intros u tile G Eu.
        destruct (doublings u new2) as [|k] eqn:Ek; [reflexivity|exfalso].
        destruct (Dbl2 u) as (x & y & t & Hin & Gt & Et); [lia|].
        rewrite Frest in Gt by assumption.
        apply (Hne x y Hin).
        apply (D x y cx cy t tile); auto; [|congruence].
        apply (Hv (x, y)). now right. }
      assert (Hr2 : forall u t',
                ~ on_board (uid t') (board s1) -> uid t' = u ->
                removals u new2 = 0%nat).
      { intros u t' Hoff Eu.
        destruct (removals u new2) as [|k] eqn:Ek; [reflexivity|exfalso].
        destruct (Rem2 u) as [Hon _]; [lia|]. apply Hoff. now rewrite Eu. }
      split; [|split].
      * intros u. rewrite doublings_app, removals_app.
        destruct (C2 u) as [Cd Cr].
        destruct Shape as [Z|(tile & t' & G & Hon & Hoff & Cnt)].
        -- destruct (Z u) as [-> ->]. simpl. now split.
        -- destruct (Cnt u) as [-> ->]. split.
           ++ destruct (Nat.eqb (uid tile) u) eqn:Eq; [|exact Cd].
              apply Nat.eqb_eq in Eq. rewrite (Hd2 u tile G Eq). lia.
           ++ destruct (Nat.eqb (uid t') u) eqn:Eq; [|exact Cr].
              apply Nat.eqb_eq in Eq. rewrite (Hr2 u t' Hoff Eq). lia.
      * intros u Hu. rewrite doublings_app in Hu.
        destruct (Nat.eq_dec (doublings u new2) 0%nat) as [Z2|N2].
        -- destruct Shape as [Z|(tile & t' & G & Hon & Hoff & Cnt)].
           ++ destruct (Z u) as [Zd _]. lia.
           ++ destruct (Cnt u) as [Cd _]. rewrite Cd in Hu.
              destruct (Nat.eqb (uid tile) u) eqn:Eq; [|lia].
              apply Nat.eqb_eq in Eq.
              exists cx, cy, tile. split; [now left|now split].
        -- destruct (Dbl2 u) as (x & y & t & Hin & Gt & Et); [lia|].
           exists x, y, t. split; [now right|].
           rewrite Frest in Gt by assumption. now split.
      * intros u Hu. rewrite removals_app in Hu.
        destruct (Nat.eq_dec (removals u new2) 0%nat) as [Z2|N2].
        -- destruct Shape as [Z|(tile & t' & G & Hon & Hoff & Cnt)].
           ++ destruct (Z u) as [_ Zr]. lia.
           ++ destruct (Cnt u) as [_ Cr]. rewrite Cr in Hu.
              destruct (Nat.eqb (uid t') u) eqn:Eq; [|lia].
              apply Nat.eqb_eq in Eq. subst u. split; [exact Hon|].
              intros H2. apply Hoff. now apply B2.
        -- destruct (Rem2 u) as [Hon2 Hoff2]; [lia|]. split; auto.
    + exists s1, new1.
      split; [reflexivity|]. split; [exact L1|]. split; [exact B1|].
      destruct Shape as [Z|(tile & t' & G & Hon & Hoff & Cnt)].
      * split; [intros u; destruct (Z u) as [-> ->]; split; lia|].
        split; intros u Hu; destruct (Z u) as [Zd Zr]; lia.
      * split; [|split].
        -- intros u. destruct (Cnt u) as [-> ->].
           destruct (Nat.eqb (uid tile) u), (Nat.eqb (uid t') u); split; lia.
        -- intros u Hu. destruct (Cnt u) as [Cd _]. rewrite Cd in Hu.
           destruct (Nat.eqb (uid tile) u) eqn:Eq; [|lia].
           apply Nat.eqb_eq in Eq.
           exists cx, cy, tile. split; [now left|now split].
        -- intros u Hu. destruct (Cnt u) as [_ Cr]. rewrite Cr in Hu.
           destruct (Nat.eqb (uid t') u) eqn:Eq; [|lia].
           apply Nat.eqb_eq in Eq. subst u. now split.
Qed.


Lemma distinct_tilesb_true (g : grid) :
  distinct_tilesb g = true -> distinct_tiles g.
Proof.
  unfold distinct_tilesb. rewrite forallb_forall.
  intros H x y x' y' t t' V V' G G' Eu.
  apply in_all_cells with (fx := false) (fy := false) in V, V'.
  specialize (H (x, y) V). rewrite forallb_forall in H.
  specialize (H (x', y') V'). cbn [fst snd] in H. rewrite G, G' in H.
  apply orb_prop in H as [H|H].
  - apply negb_true_iff, Nat.eqb_neq in H. contradiction.
  - apply andb_prop in H as [Hx Hy]. apply Z.eqb_eq in Hx, Hy. congruence.
Qed.


(** * Further properties of the code *)

(** ** The generator [all_cells] *)

(** Whatever the two flips, [all_cells] yields each of the sixteen cells of
    the board exactly once and nothing else; a flip reverses the order of its
    axis, so with both flips the cells come in the reverse order. *)
Theorem all_cells_enumerates_board (fx fy : bool) :
  List.NoDup (all_cells fx fy) /\
  length (all_cells fx fy) = 16%nat /\
  (forall x y, In (x, y) (all_cells fx fy) <-> valid_cell x y = true) /\
  all_cells (negb fx) (negb fy) = rev (all_cells fx fy).
Proof.
  split; [apply all_cells_nodup|]. split; [now destruct fx, fy|].
  split; [intros x y; apply in_all_cells|now destruct fx, fy].
Qed.

(** In each unit direction [move] visits a cell only after every cell that
    lies ahead of it in that direction. *)
Theorem move_visits_cells_ahead_first (dir_x dir_y : Z) :
  unit_direction dir_x dir_y ->
  ahead_first dir_x dir_y (all_cells (0 <? dir_x) (0 <? dir_y)).
Proof. apply all_cells_ahead_first. Qed.

Lemma move_visits_cells_ahead_first_witness :
  ahead_first (-1) 0 (all_cells (0 <? -1) (0 <? 0)).
Proof.
  apply (move_visits_cells_ahead_first (-1) 0).
  right. right. right. reflexivity.
Defined.

(** ** The colour table *)

Lemma dict_get_in {V : Type} (d : list (Z * V)) (k : Z) (v : V) :
  dict_get d k = Some v -> In k (List.map fst d).
Proof.
  induction d as [|[k' v'] d IH]; simpl; [discriminate|].
  destruct (Z.eqb_spec k' k) as [->|N]; [now left|].
  intros H. right. now apply IH.
Qed.

(** [update_colors] finds a colour exactly for the numbers 2, 4, ..., 2048;
    for every other number it raises [KeyError] with that number. *)
Theorem update_colors_domain (t : Tile) :
  (update_colors t = None <-> exists k, 1 <= k <= 11 /\ number t = 2 ^ k) /\
  (update_colors t <> None -> update_colors t = Some (KeyError (number t))).
Proof.
  split.
  - unfold update_colors. split.
    + destruct (dict_get tile_colors (number t)) as [c|] eqn:E; [|discriminate].
      intros _. apply dict_get_in in E. simpl in E.
      repeat (destruct E as [E|E];
              [rewrite <- E;
               match goal with
               | |- exists k, _ /\ ?n = _ =>
                   exists (Z.log2 n); split; [vm_compute; split; discriminate|reflexivity]
               end|]).
      destruct E.
    + intros (k & Hk & ->).
      assert (C : k = 1 \/ k = 2 \/ k = 3 \/ k = 4 \/ k = 5 \/ k = 6 \/
                  k = 7 \/ k = 8 \/ k = 9 \/ k = 10 \/ k = 11) by lia.
      repeat (destruct C as [->|C]; [reflexivity|]). now subst k.
  - unfold update_colors.
    destruct (dict_get tile_colors (number t)); [intros H; now elim H|reflexivity].
Qed.

(** ** The sliding loop stops *)

Lemma slide_more_fuel (dir_x dir_y : Z) (tile : Tile) (fuel : nat) :
  forall (g : grid) (x y : Z) (r : grid * Z * Z),
    slide fuel dir_x dir_y tile g x y = Some r ->
    slide (S fuel) dir_x dir_y tile g x y = Some r.
Proof.
  induction fuel as [|fuel IH]; intros g x y r H.
  - simpl in *. destruct (can_move g (x + dir_x) (y + dir_y)); [discriminate|exact H].
  - change (slide (S (S fuel)) dir_x dir_y tile g x y)
      with (if can_move g (x + dir_x) (y + dir_y)
            then slide (S fuel) dir_x dir_y tile
                   (put (put g x y None) (x + dir_x) (y + dir_y) (Some tile))
                   (x + dir_x) (y + dir_y)
            else Some (g, x, y)).
    change (slide (S fuel) dir_x dir_y tile g x y)
      with (if can_move g (x + dir_x) (y + dir_y)
            then slide fuel dir_x dir_y tile
                   (put (put g x y None) (x + dir_x) (y + dir_y) (Some tile))
                   (x + dir_x) (y + dir_y)
            else Some (g, x, y)) in H.
    destruct (can_move g (x + dir_x) (y + dir_y)); [now apply IH|exact H].
Qed.

(** For every integer direction, also the zero vector and vectors that are
    not unit vectors, the [while] loop of [move] stops after at most three
    steps on a 4x4 board: the tile ends on a valid cell [n] steps away, the
    cell after it cannot be moved into, and more iterations than four are
    never asked for. *)
Theorem slide_stops_within_three_steps (dir_x dir_y : Z) (tile : Tile)
    (g : grid) (x y : Z) :
  wf_grid g -> valid_cell x y = true -> get g x y = Some tile ->
  exists n g',
    0 <= n <= 3 /\
    valid_cell (x + n * dir_x) (y + n * dir_y) = true /\
    get g' (x + n * dir_x) (y + n * dir_y) = Some tile /\
    can_move g' (x + n * dir_x + dir_x) (y + n * dir_y + dir_y) = false /\
    forall fuel, (4 <= fuel)%nat ->
      slide fuel dir_x dir_y tile g x y
      = Some (g', x + n * dir_x, y + n * dir_y).
Proof.
  intros W V G.
  destruct (slide_spec dir_x dir_y tile 4 g x y W V G)
    as (n & Hn & E & V' & Hd & Hc).
  { pose proof (room_bounds dir_x dir_y x y V). lia. }
  cbv zeta in E, V', Hd, Hc.
  assert (Hfuel : forall r, slide 4 dir_x dir_y tile g x y = Some r ->
            forall fuel, (4 <= fuel)%nat ->
              slide fuel dir_x dir_y tile g x y = Some r).
  { intros r Hr fuel Hf. induction Hf as [|fuel Hf IH]; [exact Hr|].
    now apply slide_more_fuel. }
  assert (Gl : forall m,
            valid_cell (x + m * dir_x) (y + m * dir_y) = true ->
            get (put (put g x y None) (x + m * dir_x) (y + m * dir_y) (Some tile))
              (x + m * dir_x) (y + m * dir_y) = Some tile)
    by (intros m Vm; apply get_put_eq; auto using wf_put).
  destruct (Z_le_gt_dec n 3) as [Le|Gt].
  - exists n. eexists. split; [lia|]. split; [exact V'|].
    split; [now apply Gl|]. split; [exact Hc|]. now apply Hfuel.
  - (* only the zero direction lets the number of steps be read as more *)
    assert (dir_x = 0 /\ dir_y = 0) as [-> ->].
    { apply valid_cell_spec in V, V'. split; nia. }
    rewrite !Z.mul_0_r, !Z.add_0_r in *.
    exists 0, (put (put g x y None) x y (Some tile)).
    rewrite !Z.mul_0_r, !Z.add_0_r.
    split; [lia|]. split; [exact V|].
    split; [apply get_put_eq; auto using wf_put|].
    split; [exact Hc|]. now apply Hfuel.
Qed.

Lemma slide_stops_within_three_steps_witness :
  exists n g',
    0 <= n <= 3 /\
    valid_cell (0 + n * 0) (3 + n * -1) = true /\
    get g' (0 + n * 0) (3 + n * -1) = Some (mkTile 3 2) /\
    can_move g' (0 + n * 0 + 0) (3 + n * -1 + -1) = false /\
    forall fuel, (4 <= fuel)%nat ->
      slide fuel 0 (-1) (mkTile 3 2) (grid_x 0 [None; None; None; T 2 3]) 0 3
      = Some (g', 0 + n * 0, 3 + n * -1).
Proof.
  apply (slide_stops_within_three_steps 0 (-1) (mkTile 3 2)
           (grid_x 0 [None; None; None; T 2 3]) 0 3).
  - apply wf_gridb_true. reflexivity.
  - reflexivity.
  - reflexivity.
Defined.

(** ** The keyboard handler *)

Lemma dict_get_set {V : Type} (d : list (Z * V)) (k k' : Z) (v : V) :
  dict_get (dict_set d k v) k' = if k =? k' then Some v else dict_get d k'.
Proof.
  induction d as [|[k0 v0] d IH]; simpl.
  - reflexivity.
  - destruct (Z.eqb_spec k0 k) as [->|N]; simpl.
    + now destruct (k =? k').
    + rewrite IH. destruct (Z.eqb_spec k0 k') as [->|N'];
        [|reflexivity].
      destruct (Z.eqb_spec k k'); [congruence|reflexivity].
Qed.

(** What [key_vectors[key]] is, read from the last entry to the first. *)
Lemma key_vectors_get (kc : Keycodes) (key : Z) (s : Board) :
  on_key_down kc key s =
  if code_left kc =? key then move (-1) 0 s
  else if code_down kc =? key then move 0 (-1) s
  else if code_right kc =? key then move 1 0 s
  else if code_up kc =? key then move 0 1 s
  else Ok tt s.
Proof.
  unfold on_key_down, key_vectors, dict_display.
  cbn [fold_left fst snd]. rewrite !dict_get_set.
  destruct (code_left kc =? key); [reflexivity|].
  destruct (code_down kc =? key); [reflexivity|].
  destruct (code_right kc =? key); [reflexivity|].
  destruct (code_up kc =? key); reflexivity.
Qed.

(** Whatever the key codes are, [on_key_down] ignores a key that is none of
    the four (the state is returned as it was), and for each of the four it
    calls [move] with a unit direction; when the four codes are distinct, up
    is [(0, 1)], right [(1, 0)], down [(0, -1)] and left [(-1, 0)]. *)
Theorem on_key_down_moves_in_unit_directions (kc : Keycodes) (key : Z)
    (s : Board) :
  (key <> code_up kc -> key <> code_right kc -> key <> code_down kc ->
   key <> code_left kc -> on_key_down kc key s = Ok tt s) /\
  ((key = code_up kc \/ key = code_right kc \/ key = code_down kc \/
    key = code_left kc) ->
   exists dir_x dir_y,
     unit_direction dir_x dir_y /\ on_key_down kc key s = move dir_x dir_y s) /\
  (List.NoDup [code_up kc; code_right kc; code_down kc; code_left kc] ->
   on_key_down kc (code_up kc) s = move 0 1 s /\
   on_key_down kc (code_right kc) s = move 1 0 s /\
   on_key_down kc (code_down kc) s = move 0 (-1) s /\
   on_key_down kc (code_left kc) s = move (-1) 0 s).
Proof.
  rewrite !key_vectors_get. destruct kc as [u r d l].
  cbn [code_up code_right code_down code_left].
  assert (U1 : unit_direction 0 1) by (left; reflexivity).
  assert (U2 : unit_direction 1 0) by (right; left; reflexivity).
  assert (U3 : unit_direction 0 (-1)) by (right; right; left; reflexivity).
  assert (U4 : unit_direction (-1) 0) by (right; right; right; reflexivity).
  split; [|split].
  - intros N1 N2 N3 N4.
    destruct (Z.eqb_spec l key), (Z.eqb_spec d key), (Z.eqb_spec r key),
      (Z.eqb_spec u key); congruence.
  - intros Hk.
    destruct (Z.eqb_spec l key); [eauto|].
    destruct (Z.eqb_spec d key); [eauto|].
    destruct (Z.eqb_spec r key); [eauto|].
    destruct (Z.eqb_spec u key); [eauto|].
    exfalso. intuition congruence.
  - intros Hnd.
    apply List.NoDup_cons_iff in Hnd as [N1 Hnd].
    apply List.NoDup_cons_iff in Hnd as [N2 Hnd].
    apply List.NoDup_cons_iff in Hnd as [N3 _].
    simpl in N1, N2, N3.
    assert (u <> r /\ u <> d /\ u <> l /\ r <> d /\ r <> l /\ d <> l)
      as (A & B & C & D & E & F) by intuition congruence.
    rewrite !Z.eqb_refl.
    destruct (Z.eqb_spec l u), (Z.eqb_spec d u), (Z.eqb_spec r u),
      (Z.eqb_spec l r), (Z.eqb_spec d r), (Z.eqb_spec l d);
      try congruence.
    repeat split; reflexivity.
Qed.

(** ** What one visit adds to the log *)

Lemma landed_zero (dir_x dir_y : Z) (g : grid) (x y : Z) (tile : Tile) :
  wf_grid g -> valid_cell x y = true -> get g x y = Some tile ->
  landed dir_x dir_y g x y tile 0 = g.
Proof.
  intros W V G. unfold landed.
  replace (x + 0 * dir_x) with x by lia. replace (y + 0 * dir_y) with y by lia.
  now apply put_put_back.
Qed.

Lemma finish_same (x y : Z) (t : Tile) (s : Board) : finish x y t x y s = s.
Proof. unfold finish. now rewrite !Z.eqb_refl. Qed.

Lemma finish_moved (x0 y0 : Z) (t : Tile) (x y : Z) (s : Board) :
  (x, y) <> (x0, y0) ->
  effects (finish x0 y0 t x y s)
  = effects s ++ [AnimStart t x y (negb (moving s))] /\
  moving (finish x0 y0 t x y s) = true /\
  board (finish x0 y0 t x y s) = board s.
Proof.
  intros N. unfold finish.
  destruct (Z.eqb_spec x x0) as [->|Nx]; [destruct (Z.eqb_spec y y0) as [->|Ny]|];
    [congruence| |]; cbn [andb]; unfold animate;
    destruct (moving s) eqn:M; cbn; rewrite ?M; auto.
Qed.

(** The loop body at one cell, with all that the sliding loop and the merge
    test establish. *)
Lemma move_cell_cases (dir_x dir_y : Z) (s : Board) (x y : Z) :
  wf_grid (board s) -> valid_cell x y = true ->
  (get (board s) x y = None /\ move_cell dir_x dir_y (x, y) s = Ok tt s) \/
  exists tile n,
    get (board s) x y = Some tile /\ 0 <= n /\
    valid_cell (x + n * dir_x) (y + n * dir_y) = true /\
    (n = 0 \/ (x + n * dir_x, y + n * dir_y) <> (x, y) /\
              get (board s) (x + n * dir_x) (y + n * dir_y) = None) /\
    can_move (landed dir_x dir_y (board s) x y tile n)
      (x + n * dir_x + dir_x) (y + n * dir_y + dir_y) = false /\
    ((can_merge (landed dir_x dir_y (board s) x y tile n)
        (x + n * dir_x + dir_x) (y + n * dir_y + dir_y) (number tile) = false /\
      move_cell dir_x dir_y (x, y) s
      = Ok tt (finish x y tile (x + n * dir_x) (y + n * dir_y)
                 (with_board s (landed dir_x dir_y (board s) x y tile n)))) \/
     (can_merge (landed dir_x dir_y (board s) x y tile n)
        (x + n * dir_x + dir_x) (y + n * dir_y + dir_y) (number tile) = true /\
      update_colors (merged tile) = None /\
      move_cell dir_x dir_y (x, y) s
      = Ok tt (finish x y (merged tile)
                 (x + n * dir_x + dir_x) (y + n * dir_y + dir_y)
                 (after_merge dir_x dir_y tile (x + n * dir_x) (y + n * dir_y)
                    (with_board s (landed dir_x dir_y (board s) x y tile n))))) \/
     (can_merge (landed dir_x dir_y (board s) x y tile n)
        (x + n * dir_x + dir_x) (y + n * dir_y + dir_y) (number tile) = true /\
      exists e,
        update_colors (merged tile) = Some e /\
        move_cell dir_x dir_y (x, y) s
        = Raise e
            (after_merge dir_x dir_y tile (x + n * dir_x) (y + n * dir_y)
               (with_board s (landed dir_x dir_y (board s) x y tile n))))).
Proof.
  intros W V. unfold move_cell.
  destruct (get (board s) x y) as [tile|] eqn:G; [right|now left].
  destruct (slide_spec dir_x dir_y tile slide_fuel (board s) x y W V G)
    as (n & Hn & E & V' & Hd & Hc).
  { pose proof (room_bounds dir_x dir_y x y V). unfold slide_fuel. lia. }
  cbv zeta in E, V', Hd, Hc. rewrite E, merge_spec.
  change (board (with_board s ?g)) with g.
  fold (landed dir_x dir_y (board s) x y tile n) in Hc |- *.
  exists tile, n. split; [reflexivity|]. do 4 (split; [assumption|]).
  assert (Hfin : forall t x1 y1 s1,
             (if (x1 =? x) && (y1 =? y)
              then Ok tt s1 else Ok tt (animate t x1 y1 s1))
             = Ok tt (finish x y t x1 y1 s1))
    by (intros; unfold finish; destruct (_ && _); reflexivity).
  destruct (can_merge (landed dir_x dir_y (board s) x y tile n)
              (x + n * dir_x + dir_x) (y + n * dir_y + dir_y) (number tile)).
  - destruct (update_colors (merged tile)) as [e|]; simpl.
    + right. right. split; [reflexivity|]. now exists e.
    + right. left. rewrite Hfin. auto.
  - left. simpl. rewrite Hfin. auto.
Qed.

Lemma no_animation_no_spawn (log : list effect) :
  existsb is_animation log = false -> spawn_requests log = 0%nat.
Proof.
  unfold spawn_requests. induction log as [|e log IH]; [reflexivity|].
  simpl. intros H. apply orb_false_elim in H as [He Hl].
  destruct e as [| | | |t x y []]; simpl in *; auto; discriminate.
Qed.

(** In a direction other than zero the cell a tile merges into is neither
    the cell it stood on before the merge nor the cell it started from. *)
Lemma step_apart (dir_x dir_y x y n : Z) :
  (dir_x, dir_y) <> (0, 0) -> 0 <= n ->
  (x + n * dir_x + dir_x, y + n * dir_y + dir_y) <> (x + n * dir_x, y + n * dir_y) /\
  (x + n * dir_x + dir_x, y + n * dir_y + dir_y) <> (x, y).
Proof.
  intros N Hn.
  split; intros E; injection E as Ex Ey; apply N;
    (assert (dir_x = 0) by nia); (assert (dir_y = 0) by nia); congruence.
Qed.

(** What a visit adds to the log: effects [a] that are no animations, then
    at most one animation [b], which asks for the spawn exactly when [moving]
    was unset and sets [moving].  If nothing is added, the state is the old
    one and the tile of the cell was stuck. *)
Lemma move_cell_log (dir_x dir_y : Z) (s : Board) (x y : Z) :
  wf_grid (board s) -> valid_cell x y = true ->
  exists s1 a b,
    final (move_cell dir_x dir_y (x, y) s) = Some s1 /\
    wf_grid (board s1) /\
    effects s1 = effects s ++ a ++ b /\
    existsb is_animation a = false /\
    (b = [] /\ moving s1 = moving s \/
     exists t x' y',
       b = [AnimStart t x' y' (negb (moving s))] /\ moving s1 = true) /\
    (a = [] -> b = [] ->
     move_cell dir_x dir_y (x, y) s = Ok tt s /\
     stuck_at dir_x dir_y (board s) x y).
Proof.
  intros W V.
  destruct (move_cell_cases dir_x dir_y s x y W V)
    as [[G E]|(tile & n & G & Hn & V' & Hd & Hc & Cases)].
  - exists s, [], []. rewrite E, !app_nil_r.
    split; [reflexivity|]. split; [exact W|]. split; [reflexivity|].
    split; [reflexivity|]. split; [now left|].
    intros _ _. split; [reflexivity|]. intros t Gt. congruence.
  - destruct Cases as [[M E]|[(M & U & E)|(M & e & U & E)]]; rewrite E.
    + (* no merge *)
      destruct Hd as [->|[N Gn]].
      * rewrite landed_zero in * by assumption.
        replace (x + 0 * dir_x) with x in * by lia.
        replace (y + 0 * dir_y) with y in * by lia.
        rewrite finish_same, with_board_same.
        exists s, [], []. rewrite !app_nil_r.
        split; [reflexivity|]. split; [exact W|]. split; [reflexivity|].
        split; [reflexivity|]. split; [now left|].
        intros _ _. split; [reflexivity|].
        intros t Gt. rewrite G in Gt. injection Gt as <-. now split.
      * destruct (finish_moved x y tile (x + n * dir_x) (y + n * dir_y)
                    (with_board s (landed dir_x dir_y (board s) x y tile n)) N)
          as (Ef & Mf & Bf).
        eexists. exists [], [AnimStart tile (x + n * dir_x) (y + n * dir_y)
                              (negb (moving s))].
        split; [reflexivity|]. rewrite Bf.
        split; [unfold landed; cbn; auto using wf_put|].
        split; [exact Ef|]. split; [reflexivity|].
        split; [right; eauto|]. intros _ Hb. discriminate.
    + (* merge, recoloured *)
      pose proof M as M'. apply can_merge_true in M' as [V'' _].
      set (sm := after_merge dir_x dir_y tile (x + n * dir_x) (y + n * dir_y)
                   (with_board s (landed dir_x dir_y (board s) x y tile n))).
      assert (Wm : wf_grid (board sm))
        by (unfold sm; rewrite board_after_merge by assumption; auto using wf_put).
      set (a := [RemoveWidget
                   (get (put (landed dir_x dir_y (board s) x y tile n)
                           (x + n * dir_x) (y + n * dir_y) None)
                      (x + n * dir_x + dir_x) (y + n * dir_y + dir_y));
                 NumberSet (uid tile) (number tile * 2)] ++
                (if number tile * 2 =? 2048
                 then [Print "you win the game."] else [])).
      assert (Ea : effects sm = effects s ++ a) by reflexivity.
      assert (Ha : existsb is_animation a = false)
        by (unfold a; simpl; now destruct (number tile * 2 =? 2048)).
      assert (Mm : moving sm = moving s) by reflexivity.
      destruct (decide ((x + n * dir_x + dir_x, y + n * dir_y + dir_y) = (x, y)))
        as [Eq|N].
      * injection Eq as Ex Ey. rewrite Ex, Ey, finish_same.
        exists sm, a, []. rewrite app_nil_r.
        split; [reflexivity|]. split; [exact Wm|]. split; [exact Ea|].
        split; [exact Ha|]. split; [now left|]. intros Hn0. discriminate.
      * destruct (finish_moved x y (merged tile)
                    (x + n * dir_x + dir_x) (y + n * dir_y + dir_y) sm N)
          as (Ef & Mf & Bf).
        eexists. exists a, [AnimStart (merged tile)
                              (x + n * dir_x + dir_x) (y + n * dir_y + dir_y)
                              (negb (moving s))].
        split; [reflexivity|]. rewrite Bf. split; [exact Wm|].
        split; [rewrite Ef, Ea, Mm, <- app_assoc; reflexivity|].
        split; [exact Ha|]. split; [right; eauto|]. intros Hn0. discriminate.
    + (* merge, then KeyError *)
      pose proof M as M'. apply can_merge_true in M' as [V'' _].
      set (sm := after_merge dir_x dir_y tile (x + n * dir_x) (y + n * dir_y)
                   (with_board s (landed dir_x dir_y (board s) x y tile n))).
      assert (Wm : wf_grid (board sm))
        by (unfold sm; rewrite board_after_merge by assumption; auto using wf_put).
      exists sm. eexists. exists []. rewrite app_nil_r.
      split; [reflexivity|]. split; [exact Wm|]. split; [reflexivity|].
      split; [simpl; now destruct (number tile * 2 =? 2048)|].
      split; [now left|]. intros Hn0. discriminate.
Qed.

(** ** One spawn for one move *)

Lemma spawn_requests_app (l1 l2 : list effect) :
  spawn_requests (l1 ++ l2) = (spawn_requests l1 + spawn_requests l2)%nat.
Proof. unfold spawn_requests. now rewrite List.filter_app, List.length_app. Qed.

Lemma move_log_invariant (dir_x dir_y : Z) (s0 : Board) (c : Z * Z) (s : Board) :
  valid_cell (fst c) (snd c) = true ->
  (wf_grid (board s) /\
   exists new,
     effects s = effects s0 ++ new /\
     spawn_requests new = (if moving s then 1 else 0)%nat /\
     moving s = existsb is_animation new) ->
  exists s',
    final (move_cell dir_x dir_y c s) = Some s' /\
    wf_grid (board s') /\
    exists new,
      effects s' = effects s0 ++ new /\
      spawn_requests new = (if moving s' then 1 else 0)%nat /\
      moving s' = existsb is_animation new.
Proof.
  destruct c as [x y]. cbn [fst snd]. intros V (W & new & L & S & M).
  destruct (move_cell_log dir_x dir_y s x y W V)
    as (s1 & a & b & E & W1 & L1 & Ha & Hb & _).
  exists s1. split; [exact E|]. split; [exact W1|].
  exists (new ++ a ++ b). split; [rewrite L1, L, <- app_assoc; reflexivity|].
  rewrite !spawn_requests_app, !existsb_app, Ha, (no_animation_no_spawn a Ha), S.
  destruct Hb as [[-> Mb]|(t & x' & y' & -> & Mb)]; rewrite Mb.
  - unfold spawn_requests. simpl. rewrite orb_false_r.
    split; [destruct (moving s); reflexivity|exact M].
  - unfold spawn_requests. simpl. rewrite !orb_true_r.
    split; [destruct (moving s); reflexivity|reflexivity].
Qed.

(** In every direction, a [move] that starts with [moving] unset asks for
    the spawn at most once: the log gains exactly one animation carrying the
    [new_tile] callback if it gains any animation at all, and [moving] is set
    exactly in that case.  This holds of the state [move] returns with and of
    the state it leaves when [update_colors] raises. *)
Theorem move_requests_one_spawn (dir_x dir_y : Z) (s : Board) :
  wf_grid (board s) -> moving s = false ->
  exists s' new,
    final (move dir_x dir_y s) = Some s' /\
    effects s' = effects s ++ new /\
    spawn_requests new = (if moving s' then 1 else 0)%nat /\
    moving s' = existsb is_animation new.
Proof.
  intros W M. unfold move. rewrite M.
  destruct (for_cells_invariant dir_x dir_y
              (fun s' => wf_grid (board s') /\
                 exists new,
                   effects s' = effects s ++ new /\
                   spawn_requests new = (if moving s' then 1 else 0)%nat /\
                   moving s' = existsb is_animation new)
              (all_cells (0 <? dir_x) (0 <? dir_y))) with (s := s)
    as (s' & E & _ & new & L & S & M').
  - intros c s1 Hin H1. apply move_log_invariant; [|exact H1].
    destruct c as [x y]. now apply in_all_cells in Hin.
  - split; [exact W|]. exists []. rewrite app_nil_r, M. now repeat split.
  - now exists s', new.
Qed.

Lemma move_requests_one_spawn_witness :
  exists s' new,
    final (move 0 (-1) (fresh_board sum_example)) = Some s' /\
    effects s' = effects (fresh_board sum_example) ++ new /\
    spawn_requests new = (if moving s' then 1 else 0)%nat /\
    moving s' = existsb is_animation new.
Proof.
  apply (move_requests_one_spawn 0 (-1) (fresh_board sum_example)).
  - apply wf_gridb_true. reflexivity.
  - reflexivity.
Defined.

(** ** A move changes nothing exactly when every tile is stuck *)

Lemma for_cells_unchanged (dir_x dir_y : Z) (cells : list (Z * Z)) :
  (forall c, In c cells -> valid_cell (fst c) (snd c) = true) ->
  forall s,
    wf_grid (board s) ->
    exists s' new,
      final (for_cells (move_cell dir_x dir_y) cells s) = Some s' /\
      effects s' = effects s ++ new /\
      (new = [] ->
       forall x y, In (x, y) cells -> stuck_at dir_x dir_y (board s) x y).
Proof.
  induction cells as [|[cx cy] rest IH]; intros Hv s W.
  - exists s, []. rewrite app_nil_r. simpl. split; [reflexivity|].
    split; [reflexivity|]. intros _ x y [].
  - pose proof (Hv (cx, cy) (or_introl eq_refl)) as V. cbn [fst snd] in V.
    destruct (move_cell_log dir_x dir_y s cx cy W V)
      as (s1 & a & b & E1 & W1 & L1 & _ & _ & Hsame).
    change (for_cells (move_cell dir_x dir_y) ((cx, cy) :: rest) s)
      with (bind (move_cell dir_x dir_y (cx, cy) s)
              (fun _ s => for_cells (move_cell dir_x dir_y) rest s)).
    destruct (move_cell dir_x dir_y (cx, cy) s) as [[] s1'|e s1'|] eqn:Eo;
      cbn [final bind] in *; [| |discriminate]; injection E1 as ->.
    + destruct (IH (fun c Hin => Hv c (or_intror Hin)) s1 W1)
        as (s2 & new2 & E2 & L2 & H2).
      exists s2, ((a ++ b) ++ new2).
      split; [exact E2|]. split; [rewrite L2, L1, <- !app_assoc; reflexivity|].
      intros Hnil. apply app_eq_nil in Hnil as [Hab ->].
      apply app_eq_nil in Hab as [-> ->].
      destruct (Hsame eq_refl eq_refl) as [Eq0 St].
      injection Eq0 as ->.
      intros x y [Eq|Hin]; [injection Eq as <- <-; exact St|].
      now apply H2.
    + exists s1, (a ++ b). split; [reflexivity|]. split; [exact L1|].
      intros Hab. apply app_eq_nil in Hab as [-> ->].
      destruct (Hsame eq_refl eq_refl) as [Eq0 _]. discriminate.
Qed.

Lemma stuck_all_cells (dir_x dir_y : Z) (g : grid) :
  stuck dir_x dir_y g <->
  forall x y, valid_cell x y = true -> stuck_at dir_x dir_y g x y.
Proof.
  unfold stuck, stuck_at. split.
  - intros H x y V t G. now apply (H x y t).
  - intros H x y t V G. now apply (H x y V t).
Qed.

Lemma unchanged_iff_stuck (dir_x dir_y : Z) (s : Board) :
  wf_grid (board s) -> moving s = false ->
  (final (move dir_x dir_y s) = Some s <-> stuck dir_x dir_y (board s)).
Proof.
  intros W M. unfold move. rewrite M. split.
  - intros E. apply stuck_all_cells. intros x y V.
    destruct (for_cells_unchanged dir_x dir_y
                (all_cells (0 <? dir_x) (0 <? dir_y))) with (s := s)
      as (s' & new & E' & L & H); [|exact W|].
    { intros [cx cy] Hin. now apply in_all_cells in Hin. }
    rewrite E in E'. injection E' as <-.
    apply H; [|now apply in_all_cells].
    rewrite <- (app_nil_r (effects s)) in L at 1.
    now apply app_inv_head in L.
  - intros St. rewrite for_cells_stuck; [reflexivity|exact St|].
    intros [x y] Hin. now apply in_all_cells in Hin.
Qed.

(** For every direction, on a board with [moving] unset: [move] leaves the
    state exactly as it was (grid, flag and log) if and only if no tile has an
    empty cell or a tile of its own number next to it in the direction.  So a
    move that could do something never returns without a trace, and [moving]
    and the log change with the first tile that moves. *)
Theorem move_changes_nothing_iff_stuck (dir_x dir_y : Z) (s : Board) :
  wf_grid (board s) -> moving s = false ->
  (final (move dir_x dir_y s) = Some s <-> stuck dir_x dir_y (board s)).
Proof. apply unchanged_iff_stuck. Qed.

Lemma move_changes_nothing_iff_stuck_witness :
  final (move 0 (-1) (fresh_board packed_example))
  = Some (fresh_board packed_example) <->
  stuck 0 (-1) (board (fresh_board packed_example)).
Proof.
  apply (move_changes_nothing_iff_stuck 0 (-1) (fresh_board packed_example)).
  - apply wf_gridb_true. reflexivity.
  - reflexivity.
Defined.

(** ** Deadlock means that no move is left *)

Lemma walk_axis (P : Z -> Prop) (a : Z) :
  P a -> 0 <= a <= 3 ->
  (forall z, 0 <= z <= 3 -> P z -> 0 <= z + 1 <= 3 -> P (z + 1)) ->
  (forall z, 0 <= z <= 3 -> P z -> 0 <= z - 1 <= 3 -> P (z - 1)) ->
  forall z, 0 <= z <= 3 -> P z.
Proof.
  intros Pa Ha Up Down.
  assert (H : forall k : nat, forall z,
            0 <= z <= 3 -> Z.abs (z - a) = Z.of_nat k -> P z).
  { induction k as [|k IH]; intros z Hz Hk.
    - assert (z = a) by lia. now subst.
    - destruct (Z_lt_le_dec z a) as [Lt|Ge].
      + replace z with (z + 1 - 1) by lia.
        apply Down; [lia| |lia]. apply IH; lia.
      + replace z with (z - 1 + 1) by lia.
        apply Up; [lia| |lia]. apply IH; lia. }
  intros z Hz. apply (H (Z.to_nat (Z.abs (z - a))) z Hz). lia.
Qed.

(** If every tile is blocked in all four directions, one tile on the board
    means that the board is full. *)
Lemma blocked_board_is_full (g : grid) :
  (forall dir_x dir_y, unit_direction dir_x dir_y -> stuck dir_x dir_y g) ->
  has_tile g -> full g.
Proof.
  intros St (x0 & y0 & t0 & V0 & G0).
  assert (Step : forall dx dy x y,
            unit_direction dx dy -> valid_cell x y = true ->
            get g x y <> None -> valid_cell (x + dx) (y + dy) = true ->
            get g (x + dx) (y + dy) <> None).
  { intros dx dy x y U V Occ V' Hn.
    destruct (get g x y) as [t|] eqn:G; [|congruence].
    destruct (St dx dy U x y t V G) as [Cm _].
    unfold can_move in Cm. rewrite V', Hn in Cm. discriminate. }
  apply valid_cell_spec in V0.
  assert (Row : forall x, 0 <= x <= 3 -> get g x y0 <> None).
  { apply (walk_axis (fun x => get g x y0 <> None) x0).
    - congruence.
    - lia.
    - intros z Hz Pz Hz'. replace y0 with (y0 + 0) by lia.
      apply (Step 1 0); [right; left; reflexivity| | |];
        rewrite ?Z.add_0_r; try (apply valid_cell_spec; lia). exact Pz.
    - intros z Hz Pz Hz'. replace y0 with (y0 + 0) by lia.
      change (z - 1) with (z + -1).
      apply (Step (-1) 0); [right; right; right; reflexivity| | |];
        rewrite ?Z.add_0_r; try (apply valid_cell_spec; lia). exact Pz. }
  intros x y V. apply valid_cell_spec in V.
  apply (walk_axis (fun y => get g x y <> None) y0); try lia.
  - apply Row. lia.
  - intros z Hz Pz Hz'. replace x with (x + 0) by lia.
    apply (Step 0 1); [left; reflexivity| | |];
      rewrite ?Z.add_0_r; try (apply valid_cell_spec; lia). exact Pz.
  - intros z Hz Pz Hz'. replace x with (x + 0) by lia.
    change (z - 1) with (z + -1).
    apply (Step 0 (-1)); [right; right; left; reflexivity| | |];
      rewrite ?Z.add_0_r; try (apply valid_cell_spec; lia). exact Pz.
Qed.

Lemma deadlocked_iff_all_stuck (s : Board) :
  is_deadlocked s = true <->
  has_tile (board s) /\
  forall dir_x dir_y, unit_direction dir_x dir_y -> stuck dir_x dir_y (board s).
Proof.
  unfold is_deadlocked. rewrite deadlock_scan_true. set (g := board s). split.
  - intros H.
    assert (H' : forall x y, valid_cell x y = true ->
               exists t, get g x y = Some t /\
                 can_merge g (x + 1) y (number t) = false /\
                 can_merge g x (y + 1) (number t) = false).
    { intros x y V. apply H. now apply in_all_cells. }
    clear H. split.
    + destruct (H' 0 0 eq_refl) as (t & G & _). now exists 0, 0, t.
    + intros dx dy U x y t V G.
      destruct (H' x y V) as (t0 & G0 & Mx & My).
      rewrite G in G0. injection G0 as <-. split.
      * unfold can_move.
        destruct (valid_cell (x + dx) (y + dy)) eqn:V'; [|reflexivity].
        destruct (H' _ _ V') as (t' & G' & _). now rewrite G'.
      * apply can_merge_false. intros V' t' G'.
        destruct (H' _ _ V') as (t1 & G1 & Mx' & My').
        rewrite G' in G1. injection G1 as <-.
        rewrite can_merge_false in Mx, My, Mx', My'.
        destruct U as [E|[E|[E|E]]]; injection E as -> ->.
        -- rewrite Z.add_0_r in *. now apply (My V' t').
        -- rewrite Z.add_0_r in *. now apply (Mx V' t').
        -- rewrite Z.add_0_r in *. intros E.
           apply (My' (ltac:(now replace (y + -1 + 1) with y by lia))
                    t); [now replace (y + -1 + 1) with y by lia|congruence].
        -- rewrite Z.add_0_r in *. intros E.
           apply (Mx' (ltac:(now replace (x + -1 + 1) with x by lia))
                    t); [now replace (x + -1 + 1) with x by lia|congruence].
  - intros [Ht St] x y Hin. apply in_all_cells in Hin.
    pose proof (blocked_board_is_full g St Ht) as Hf.
    destruct (get g x y) as [t|] eqn:G; [|now apply Hf in Hin].
    exists t. split; [reflexivity|]. split.
    + destruct (St 1 0 (or_intror (or_introl eq_refl)) x y t Hin G) as [_ M].
      now rewrite Z.add_0_r in M.
    + destruct (St 0 1 (or_introl eq_refl) x y t Hin G) as [_ M].
      now rewrite Z.add_0_r in M.
Qed.

(** [is_deadlocked] is right about the game: with [moving] unset, it returns
    true exactly when there is a tile on the board and none of the four moves
    changes anything (each returns the state it was given). *)
Theorem deadlocked_iff_no_move_left (s : Board) :
  wf_grid (board s) -> moving s = false ->
  (is_deadlocked s = true <->
   has_tile (board s) /\
   forall dir_x dir_y, unit_direction dir_x dir_y ->
     final (move dir_x dir_y s) = Some s).
Proof.
  intros W M. rewrite deadlocked_iff_all_stuck. split.
  - intros [Ht St]. split; [exact Ht|]. intros dx dy U.
    apply unchanged_iff_stuck; auto.
  - intros [Ht Mv]. split; [exact Ht|]. intros dx dy U.
    apply unchanged_iff_stuck; auto.
Qed.

Lemma deadlocked_iff_no_move_left_witness :
  is_deadlocked (fresh_board full_example) = true <->
  has_tile (board (fresh_board full_example)) /\
  forall dir_x dir_y, unit_direction dir_x dir_y ->
    final (move dir_x dir_y (fresh_board full_example))
    = Some (fresh_board full_example).
Proof.
  apply (deadlocked_iff_no_move_left (fresh_board full_example)).
  - apply wf_gridb_true. reflexivity.
  - reflexivity.
Defined.
